(** * The [screenshot] command: reliable writer, frame encoder, capture driver

    A shallow embedding of [cmds/screenshot/screenshot.cpp].  The command asks
    the SurfaceFlinger for the display geometry, has the screen grabbed into an
    ashmem region, and writes an [fbinfo] header followed by the scan lines, in
    reverse order, to standard output.

    Integers are mathematical integers with the wrap-around of the 32-bit
    target written out ([unsigned int], [uint32_t] and [size_t] are all 32 bits
    wide on the ARM devices the command was built for).  The file descriptor
    behind [write] and the other system services are oracles: the functions
    take their answers as data and thread the process state explicitly. *)

From Stdlib Require Import String.
From Stdlib.Strings Require Import Byte.
From Stdlib Require Import ZArith List Lia Bool.
Import ListNotations.
Local Open Scope Z_scope.

(** ** Machine integers and their memory image *)

Module Mach.

Definition two32 : Z := 4294967296.

(** Reduction to 32 bits, applied wherever the source computes in
    [unsigned int], [uint32_t] or [size_t]. *)
Definition u32 (z : Z) : Z := z mod two32.

Definition in_u32 (z : Z) : Prop := 0 <= z < two32.

Definition byte_of_Z (z : Z) : byte :=
  match Byte.of_N (Z.to_N (z mod 256)) with
  | Some b => b
  | None => x00
  end.

Definition Z_of_byte (b : byte) : Z := Z.of_N (Byte.to_N b).

(** The four bytes of a 32-bit word as they lie in memory (least significant
    byte first: the struct is written to the sink as it lies in memory). *)
Definition le32 (z : Z) : list byte :=
  [byte_of_Z z; byte_of_Z (z / 256); byte_of_Z (z / 65536); byte_of_Z (z / 16777216)].

Definition Z_of_le (bs : list byte) : Z :=
  fold_right (fun b acc => Z_of_byte b + 256 * acc) 0 bs.

(** The 32-bit word found at byte offset [off] of [bs]. *)
Definition get_le32 (bs : list byte) (off : nat) : Z :=
  Z_of_le (firstn 4 (skipn off bs)).

End Mach.
Import Mach.

(** ** Constants of the platform headers *)

Definition DDMS_RAWIMAGE_VERSION : Z := 1.

(** Modelled from the spec: the closed enumeration of pixel formats
    (RGBA-8888, RGB-565, anything else unknown).  The tags are declared in
    [ui/PixelFormat.h], which is not among the sources; they carry the values of
    that header. *)
Definition PIXEL_FORMAT_RGBA_8888 : Z := 1.
Definition PIXEL_FORMAT_RGB_565 : Z := 4.

(** Modelled from the spec: the orientation swap bit, set when the logical
    display is rotated by 90 or 270 degrees ([ISurfaceComposer.h], not among the
    sources). *)
Definition eOrientationSwapMask : Z := 1.

(** Modelled from the spec: the status codes of [utils/Errors.h] (success, and
    the code returned for an unsupported format, which is [-EINVAL]). *)
Definition NO_ERROR : Z := 0.
Definition BAD_VALUE : Z := -22.

Definition EINTR : Z := 4.

(** ** The wire header *)

Record fbinfo := mk_fbinfo {
  version : Z;
  bpp : Z;
  size : Z;
  width : Z;
  height : Z;
  red_offset : Z;
  red_length : Z;
  blue_offset : Z;
  blue_length : Z;
  green_offset : Z;
  green_length : Z;
  alpha_offset : Z;
  alpha_length : Z
}.

(** The members in declaration order.  The struct is [packed] and every member
    is an [unsigned int], so its memory image is the members' images one after
    the other. *)
Definition fbinfo_members (fb : fbinfo) : list Z :=
  [version fb; bpp fb; size fb; width fb; height fb;
   red_offset fb; red_length fb;
   blue_offset fb; blue_length fb;
   green_offset fb; green_length fb;
   alpha_offset fb; alpha_length fb].

(** What [write(fd, &fbinfo, sizeof(fbinfo))] reads. *)
Definition fbinfo_image (fb : fbinfo) : list byte :=
  flat_map le32 (fbinfo_members fb).



(** ** Display geometry *)

Record PixelFormatInfo := mk_pfi {
  format : Z;
  bytesPerPixel : Z
}.

Record DisplayInfo := mk_info {
  w : Z;
  h : Z;
  pixelFormatInfo : PixelFormatInfo;
  orientation : Z
}.

(** Modelled from the spec: the pixel-format table of the display library
    ([getPixelFormatInfo], not among the sources) reports 4 bytes per pixel for
    RGBA-8888 and 2 for RGB-565.  A geometry "of format F" carries the table's
    entry for F. *)
Definition is_RGBA_8888 (info : DisplayInfo) : Prop :=
  format (pixelFormatInfo info) = PIXEL_FORMAT_RGBA_8888 /\
  bytesPerPixel (pixelFormatInfo info) = 4.

Definition is_RGB_565 (info : DisplayInfo) : Prop :=
  format (pixelFormatInfo info) = PIXEL_FORMAT_RGB_565 /\
  bytesPerPixel (pixelFormatInfo info) = 2.

Definition supported (info : DisplayInfo) : Prop :=
  format (pixelFormatInfo info) = PIXEL_FORMAT_RGBA_8888 \/
  format (pixelFormatInfo info) = PIXEL_FORMAT_RGB_565.

(** ** Process state and the sink *)

(** One answer of [write(2)]: [Sent n] accepts [n] bytes, or the whole request
    when that is shorter (the call never reports more than it was given);
    [Eof] returns 0; [Failed e] returns -1 and sets [errno] to [e]. *)
Inductive write_result :=
| Sent (n : positive)
| Eof
| Failed (e : Z).

Inductive event :=
| Log (what : string) (arg : Z)
| AshmemCreate (sz : Z)
| Mmap (sz fd : Z)
| GrabScreen (dpy fd : Z)
| Munmap (sz : Z)
| Close (fd : Z).

(** [pending] lists the answers the sink will give to the next calls of
    [write]; once they are used up the sink accepts every request whole.
    [out] is what the sink has received, [trace] the diagnostics and the
    resource calls made so far. *)
Record world := mk_world {
  errno : Z;
  pending : list write_result;
  out : list byte;
  trace : list event
}.

Definition set_errno (e : Z) (st : world) : world :=
  mk_world e (pending st) (out st) (trace st).

Definition set_pending (ps : list write_result) (st : world) : world :=
  mk_world (errno st) ps (out st) (trace st).

Definition emit (bs : list byte) (st : world) : world :=
  mk_world (errno st) (pending st) (out st ++ bs) (trace st).

Definition record (ev : event) (st : world) : world :=
  mk_world (errno st) (pending st) (out st) (trace st ++ [ev]).

(** [LOGE]: a line on the diagnostic channel, never on the sink. *)
Definition LOGE (what : string) (arg : Z) (st : world) : world :=
  record (Log what arg) st.

(** A sink that may cut writes short or interrupt them, but never reports end
    of file or a hard error. *)
Definition benign (r : write_result) : Prop :=
  match r with
  | Sent _ => True
  | Eof => False
  | Failed e => e = EINTR
  end.

(** ** [writex] *)

(** [write(fd, p, len)] on the sink of [st]: the value returned and the state
    left behind. *)
Definition sys_write (st : world) (p : list byte) : Z * world :=
  match pending st with
  | [] => (Z.of_nat (length p), emit p st)
  | Sent n :: ps =>
      let k := Nat.min (Pos.to_nat n) (length p) in
      (Z.of_nat k, set_pending ps (emit (firstn k p) st))
  | Eof :: ps => (0, set_pending ps st)
  | Failed e :: ps => (-1, set_pending ps (set_errno e st))
  end.

(** The loop of [writex], by recursion on the sink's answers; [p] is the span
    still to be sent ([len] is its length).  Each branch is one pass through
    the loop body for one answer of [sys_write]; [writex_unfold] below states
    the loop in the words of the source. *)
Fixpoint writex_loop (ps : list write_result) (st : world) (p : list byte)
  : Z * world :=
  match p with
  | [] => (0, set_pending ps st)
  | _ :: _ =>
      match ps with
      | [] => (0, set_pending [] (emit p st))
      | Sent n :: ps' =>
          writex_loop ps' (emit (firstn (Pos.to_nat n) p) st)
                      (skipn (Pos.to_nat n) p)
      | Eof :: ps' => (-1, set_pending ps' st)
      | Failed e :: ps' =>
          if e =? EINTR then writex_loop ps' (set_errno e st) p
          else (-1, set_pending ps' (set_errno e st))
      end
  end.

Definition writex (st : world) (p : list byte) : Z * world :=
  writex_loop (pending st) st p.

(** ** [write_data] *)

(** Lines 83 to 87: the five leading members; the others keep what the
    storage held. *)
Definition set_geometry (fb : fbinfo) (v b s wd ht : Z) : fbinfo :=
  mk_fbinfo v b s wd ht
            (red_offset fb) (red_length fb) (blue_offset fb) (blue_length fb)
            (green_offset fb) (green_length fb) (alpha_offset fb) (alpha_length fb).

(** One arm of the [switch]: the red, green and blue members. *)
Definition set_channels (fb : fbinfo) (ro rl go gl bo bl : Z) : fbinfo :=
  mk_fbinfo (version fb) (bpp fb) (size fb) (width fb) (height fb)
            ro rl bo bl go gl (alpha_offset fb) (alpha_length fb).

(** The local [struct fbinfo fbinfo] has no initialiser: [junk] is what its
    storage holds on entry.  [None] is the [default] arm. *)
Definition fill_fbinfo (junk : fbinfo) (info : DisplayInfo) : option fbinfo :=
  let pfi := pixelFormatInfo info in
  let fb := set_geometry junk
              DDMS_RAWIMAGE_VERSION
              (u32 (bytesPerPixel pfi * 8))
              (u32 (u32 (w info * h info) * bytesPerPixel pfi))
              (w info)
              (h info) in
  if format pfi =? PIXEL_FORMAT_RGBA_8888 then
    Some (set_channels fb 0 8 8 8 16 8)
  else if format pfi =? PIXEL_FORMAT_RGB_565 then
    Some (set_channels fb 11 5 5 6 0 5)
  else None.

(** The [len] bytes at offset [off] of the buffer [data] points to; [None]
    when the span leaves the buffer. *)
Definition read_at (data : list byte) (off len : Z) : option (list byte) :=
  if (0 <=? off) && (0 <=? len) && (off + len <=? Z.of_nat (length data)) then
    Some (firstn (Z.to_nat len) (skipn (Z.to_nat off) data))
  else None.

(** The row loop, [n] rows still to go.  [cursor] is the pointer [data] as an
    offset from the start of the buffer, moved in 32-bit arithmetic. *)
Fixpoint write_rows (n : nat) (st : world) (data : list byte)
         (cursor linesize : Z) : option (Z * world) :=
  match n with
  | O => Some (NO_ERROR, st)
  | S n' =>
      let cursor' := u32 (cursor - linesize) in
      match read_at data cursor' linesize with
      | None => None
      | Some row =>
          let '(r, st1) := writex st row in
          if r =? 0 then write_rows n' st1 data cursor' linesize
          else Some (- errno st1, LOGE "write()" (errno st1) st1)
      end
  end.

(** [write_data(fd, info, data, len)], with [fd] the sink of [st].  The result
    is [None] when a row is read outside the buffer. *)
Definition write_data (junk : fbinfo) (st : world) (info : DisplayInfo)
           (data : list byte) (len : Z) : option (Z * world) :=
  match fill_fbinfo junk info with
  | None =>
      Some (BAD_VALUE,
            LOGE "Unknown pixel format" (format (pixelFormatInfo info)) st)
  | Some fb =>
      let '(r, st1) := writex st (fbinfo_image fb) in
      if r =? 0 then
        let linesize := u32 (bytesPerPixel (pixelFormatInfo info) * w info) in
        let cursor := u32 (linesize * h info) in
        write_rows (Z.to_nat (h info)) st1 data cursor linesize
      else Some (- errno st1, LOGE "write()" (errno st1) st1)
  end.

(** ** [main] *)

Inductive sysres (A : Type) :=
| Ok (a : A)
| Err (e : Z).
Arguments Ok {A} a.
Arguments Err {A} e.

(** The answers of the services [main] calls: the display query (status and
    geometry), the region's descriptor, the mapping, the grab (status and the
    bytes the compositor left in the region) and the unmapping. *)
Record env := mk_env {
  getDisplayInfo : Z * DisplayInfo;
  ashmem_create_region : sysres Z;
  mmap : sysres unit;
  grabScreen : Z * list byte;
  munmap : sysres unit
}.

(** Lines 147 to 154. *)
Definition undo_rotation (info : DisplayInfo) : DisplayInfo :=
  if Z.land (orientation info) eOrientationSwapMask =? 0 then info
  else mk_info (h info) (w info) (pixelFormatInfo info) (orientation info).

Definition finish (st : world) (e : env) (fb_size fb_fd : Z) : Z * world :=
  let st := record (Munmap fb_size) st in
  let st := match munmap e with
            | Ok _ => st
            | Err en => LOGE "munmap()" en (set_errno en st)
            end in
  (0, record (Close fb_fd) st).

Definition main (junk : fbinfo) (st : world) (e : env) : option (Z * world) :=
  let dpy := 0 in
  let '(err, info) := getDisplayInfo e in
  if negb (err =? 0) then Some (-1, LOGE "getDisplayInfo" err st)
  else
    let info := undo_rotation info in
    let fb_size :=
      u32 (u32 (w info * h info) * bytesPerPixel (pixelFormatInfo info)) in
    let st := record (AshmemCreate fb_size) st in
    match ashmem_create_region e with
    | Err en => Some (- en, LOGE "ashmem_create_region" en (set_errno en st))
    | Ok fb_fd =>
        let st := record (Mmap fb_size fb_fd) st in
        match mmap e with
        | Err en => Some (- en, LOGE "mmap failed" en (set_errno en st))
        | Ok _ =>
            let st := record (GrabScreen dpy fb_fd) st in
            let '(err, frame) := grabScreen e in
            if negb (err =? 0) then Some (-1, LOGE "grabScreen" err st)
            else
              let data := firstn (Z.to_nat fb_size) frame in
              match write_data junk st info data fb_size with
              | None => None
              | Some (err, st) =>
                  if negb (err =? 0) then Some (-1, LOGE "write_data" err st)
                  else Some (finish st e fb_size fb_fd)
              end
        end
    end.

(** Resource accounting over a trace. *)
Definition is_munmap (ev : event) : bool :=
  match ev with Munmap _ => true | _ => false end.

Definition is_close (ev : event) : bool :=
  match ev with Close _ => true | _ => false end.

Definition count_events (f : event -> bool) (t : list event) : nat :=
  length (filter f t).

(** The first [n] rows of [ls] bytes each of a buffer. *)
Fixpoint rows_of (n ls : nat) (data : list byte) : list (list byte) :=
  match n with
  | O => []
  | S n' => firstn ls data :: rows_of n' ls (skipn ls data)
  end.

(** Rows that are all [ls] bytes long. *)
Definition uniform (ls : nat) (rows : list (list byte)) : Prop :=
  Forall (fun r => length r = ls) rows.

(** The number of bytes a run of answers takes when none of them is cut by
    the end of the span: the sizes of the writes that went through. *)
Fixpoint accepted (ps : list write_result) : nat :=
  match ps with
  | [] => 0
  | Sent n :: ps' => Pos.to_nat n + accepted ps'
  | _ :: ps' => accepted ps'
  end.

(** ** Sample inputs *)

(** Storage that still holds what earlier calls left on the stack. *)
Definition stale_storage : fbinfo :=
  mk_fbinfo 7 7 7 7 7 7 7 7 7 7 7 3735928559 4294967295.

Definition zero_storage : fbinfo :=
  mk_fbinfo 0 0 0 0 0 0 0 0 0 0 0 0 0.

Definition info_8888_4x2 : DisplayInfo :=
  mk_info 4 2 (mk_pfi PIXEL_FORMAT_RGBA_8888 4) 0.

Definition info_565_2x2 : DisplayInfo :=
  mk_info 2 2 (mk_pfi PIXEL_FORMAT_RGB_565 2) 0.

(** A display queried while rotated by 90 degrees: 3 wide, 2 high as
    reported, RGB-565. *)
Definition info_565_rotated : DisplayInfo :=
  mk_info 3 2 (mk_pfi PIXEL_FORMAT_RGB_565 2) 1.

(** A format tag outside the two the encoder knows (RGB-888 in the platform
    header). *)
Definition info_other : DisplayInfo :=
  mk_info 4 2 (mk_pfi 3 3) 0.

Definition ramp (n : nat) : list byte :=
  map (fun k => byte_of_Z (Z.of_nat k)) (seq 0 n).

Definition rows_565_2x2 : list (list byte) :=
  [[x01; x02; x03; x04]; [x05; x06; x07; x08]].

Definition rows_565_2x3 : list (list byte) :=
  [[x01; x02; x03; x04]; [x05; x06; x07; x08]; [x09; x0a; x0b; x0c]].

Definition clean : world := mk_world 0 [] [] [].

(** A sink that cuts the first write to three bytes and interrupts the
    second. *)
Definition choppy : world := mk_world 0 [Sent 3; Failed EINTR; Sent 100] [] [].

(** A sink whose first [write] returns 0, in a process whose [errno] is still
    0. *)
Definition at_eof : world := mk_world 0 [Eof] [] [].

(** A sink that fails with [EPIPE]. *)
Definition broken_pipe : world := mk_world 0 [Failed 32] [] [].

Definition env_ok (info : DisplayInfo) (frame : list byte) : env :=
  mk_env (0, info) (Ok 3) (Ok tt) (0, frame) (Ok tt).

(** The compositor refuses the grab (status [-32]) after the region was
    created and mapped. *)
Definition env_grab_fails : env :=
  mk_env (0, info_8888_4x2) (Ok 3) (Ok tt) (-32, []) (Ok tt).

(** * Properties *)

(** ** Words and their images *)

Lemma two32_pos : 0 < two32.
Proof. reflexivity. Qed.

Lemma u32_range z : in_u32 (u32 z).
Proof. apply Z.mod_pos_bound, two32_pos. Qed.

Lemma u32_small z : in_u32 z -> u32 z = z.
Proof. intros Hz. apply Z.mod_small, Hz. Qed.

Lemma Z_of_byte_of_Z z : Z_of_byte (byte_of_Z z) = z mod 256.
Proof.
  unfold Z_of_byte, byte_of_Z.
  assert (Hm : 0 <= z mod 256 < 256) by (apply Z.mod_pos_bound; lia).
  destruct (Byte.of_N (Z.to_N (z mod 256))) as [b|] eqn:E.
  - apply Byte.to_of_N in E. rewrite E. apply Z2N.id. lia.
  - apply Byte.of_N_None_iff in E. lia.
Qed.

Lemma Z_of_le_le32 z : Z_of_le (le32 z) = u32 z.
Proof.
  unfold Z_of_le, le32, u32, two32. cbn [fold_right].
  rewrite !Z_of_byte_of_Z.
  Z.div_mod_to_equations. lia.
Qed.

Lemma le32_length z : length (le32 z) = 4%nat.
Proof. reflexivity. Qed.

(** ** The reliable writer *)

Section Writex.

Lemma writex_loop_nil ps st : writex_loop ps st [] = (0, set_pending ps st).
Proof. destruct ps; reflexivity. Qed.

Lemma writex_loop_pending ps : forall qs st p,
  writex_loop ps (set_pending qs st) p = writex_loop ps st p.
Proof.
  induction ps as [|a ps IH]; intros qs st p.
  - destruct p; reflexivity.
  - destruct p as [|b p]; [reflexivity|].
    cbn [writex_loop]. destruct a as [n| |e]; [|reflexivity|].
    + apply (IH qs (emit (firstn (Pos.to_nat n) (b :: p)) st)).
    + destruct (e =? EINTR); [|reflexivity].
      apply (IH qs (set_errno e st)).
Qed.

Lemma firstn_min (p : list byte) n : firstn (Nat.min n (length p)) p = firstn n p.
Proof.
  destruct (Nat.min_spec n (length p)) as [[_ ->]|[Hle ->]]; [reflexivity|].
  now rewrite firstn_all, firstn_all2.
Qed.

Lemma skipn_min (p : list byte) n : skipn (Nat.min n (length p)) p = skipn n p.
Proof.
  destruct (Nat.min_spec n (length p)) as [[_ ->]|[Hle ->]]; [reflexivity|].
  now rewrite skipn_all, skipn_all2.
Qed.

(** [writex] in the words of the source: while [len > 0], call [write]; on a
    positive return advance by it; on a negative return with [errno = EINTR]
    go round again; otherwise return -1; return 0 when nothing is left. *)
Lemma writex_unfold st p :
  writex st p =
  match p with
  | [] => (0, st)
  | _ :: _ =>
      let '(r, st1) := sys_write st p in
      if 0 <? r then writex st1 (skipn (Z.to_nat r) p)
      else if (r <? 0) && (errno st1 =? EINTR) then writex st1 p
      else (-1, st1)
  end.
Proof.
  destruct st as [e ps o t]. destruct p as [|b p]; [destruct ps; reflexivity|].
  unfold writex, sys_write. cbn [pending].
  destruct ps as [|[n| |e'] ps].
  - cbn [writex_loop]. replace (0 <? Z.of_nat (length (b :: p))) with true
      by (symmetry; apply Z.ltb_lt; cbn [length]; lia).
    rewrite Nat2Z.id, skipn_all. reflexivity.
  - cbn [writex_loop]. cbv zeta.
    replace (0 <? Z.of_nat (Nat.min (Pos.to_nat n) (length (b :: p)))) with true
      by (symmetry; apply Z.ltb_lt; cbn [length]; lia).
    rewrite Nat2Z.id, firstn_min, skipn_min.
    cbn [pending set_pending emit errno out trace].
    symmetry. apply (writex_loop_pending ps ps
                       (emit (firstn (Pos.to_nat n) (b :: p)) (mk_world e (Sent n :: ps) o t))).
  - reflexivity.
  - cbn [writex_loop]. cbn [Z.ltb Z.compare andb errno set_pending set_errno pending].
    destruct (e' =? EINTR); [|reflexivity].
    symmetry. apply (writex_loop_pending ps ps
                       (set_errno e' (mk_world e (Failed e' :: ps) o t))).
Qed.

(** The status is 0 or -1, nothing else. *)
Lemma writex_loop_status ps : forall st p,
  fst (writex_loop ps st p) = 0 \/ fst (writex_loop ps st p) = -1.
Proof.
  induction ps as [|r ps IH]; intros st [|b p]; cbn; auto.
  destruct r as [n| |e]; auto.
  destruct (e =? EINTR); auto.
Qed.

(** Whatever happens, the sink only ever receives a prefix of the span, and
    the diagnostics are left alone. *)
Lemma writex_loop_prefix ps : forall st p r st',
  writex_loop ps st p = (r, st') ->
  exists k, out st' = out st ++ firstn k p /\ trace st' = trace st.
Proof.
  induction ps as [|a ps IH]; intros st p r st' H.
  - destruct p; inversion H; subst; cbn.
    + exists 0%nat. now rewrite app_nil_r.
    + exists (length (b :: p)). now rewrite firstn_all.
  - destruct p as [|b p].
    + inversion H; subst. exists 0%nat. cbn. now rewrite app_nil_r.
    + cbn [writex_loop] in H. destruct a as [n| |e].
      * apply IH in H. destruct H as [k [Ho Ht]]. cbn [emit out trace] in Ho, Ht.
        exists (Pos.to_nat n + k)%nat. split; [|exact Ht].
        rewrite Ho, <- app_assoc. f_equal.
        rewrite <- (firstn_skipn (Pos.to_nat n) (b :: p)) at 3.
        rewrite firstn_app.
        destruct (Nat.le_gt_cases (Pos.to_nat n) (length (b :: p))) as [Hle|Hgt].
        -- rewrite firstn_length_le by exact Hle.
           replace (Pos.to_nat n + k - Pos.to_nat n)%nat with k by lia.
           rewrite firstn_firstn.
           now replace (Nat.min (Pos.to_nat n + k) (Pos.to_nat n)) with (Pos.to_nat n) by lia.
        -- rewrite (firstn_all2 (n := Pos.to_nat n)) by lia.
           rewrite (skipn_all2 (n := Pos.to_nat n)) by lia.
           rewrite !firstn_nil, !app_nil_r.
           symmetry. apply firstn_all2. lia.
      * inversion H; subst. exists 0%nat. cbn. now rewrite app_nil_r.
      * destruct (e =? EINTR).
        -- apply IH in H. exact H.
        -- inversion H; subst. exists 0%nat. cbn. now rewrite app_nil_r.
Qed.

(** Status 0 means the whole span went out. *)
Lemma writex_loop_success ps : forall st p st',
  writex_loop ps st p = (0, st') -> out st' = out st ++ p.
Proof.
  induction ps as [|a ps IH]; intros st p st' H.
  - destruct p; inversion H; subst; cbn; [now rewrite app_nil_r | reflexivity].
  - destruct p as [|b p].
    + inversion H; subst. cbn. now rewrite app_nil_r.
    + cbn [writex_loop] in H. destruct a as [n| |e].
      * apply IH in H. cbn [emit out] in H.
        now rewrite H, <- app_assoc, firstn_skipn.
      * discriminate H.
      * destruct (e =? EINTR); [|discriminate H].
        apply IH in H. exact H.
Qed.

(** On a benign sink the loop ends with status 0. *)
Lemma writex_loop_benign ps : forall st p,
  Forall benign ps ->
  exists st', writex_loop ps st p = (0, st') /\ Forall benign (pending st').
Proof.
  induction ps as [|a ps IH]; intros st p Hb.
  - destruct p; cbn; eauto.
  - destruct p as [|b p]; [cbn; eauto|].
    inversion Hb as [|? ? Ha Hps]; subst.
    cbn [writex_loop]. destruct a as [n| |e]; cbn in Ha.
    + apply IH, Hps.
    + contradiction.
    + subst e. cbn. apply IH, Hps.
Qed.

(** The status and the bytes sent do not depend on [errno] or on the
    diagnostics: two states with the same [out] fare alike. *)
Lemma writex_loop_out_only ps : forall st1 st2 p,
  out st1 = out st2 ->
  fst (writex_loop ps st1 p) = fst (writex_loop ps st2 p) /\
  out (snd (writex_loop ps st1 p)) = out (snd (writex_loop ps st2 p)).
Proof.
  induction ps as [|a ps IH]; intros st1 st2 p Ho.
  - destruct p; cbn; rewrite Ho; auto.
  - destruct p as [|b p]; [cbn; auto|].
    cbn [writex_loop]. destruct a as [n| |e].
    + apply IH. cbn. now rewrite Ho.
    + cbn. auto.
    + destruct (e =? EINTR); [apply IH; exact Ho | cbn; auto].
Qed.

(** An interruption anywhere among the sink's answers changes neither the
    status nor the bytes sent. *)
Lemma writex_loop_skip_EINTR pre : forall post st p,
  fst (writex_loop (pre ++ Failed EINTR :: post) st p)
  = fst (writex_loop (pre ++ post) st p) /\
  out (snd (writex_loop (pre ++ Failed EINTR :: post) st p))
  = out (snd (writex_loop (pre ++ post) st p)).
Proof.
  induction pre as [|a pre IH]; intros post st p.
  - destruct p as [|b p].
    + rewrite !writex_loop_nil. cbn. auto.
    + cbn [app writex_loop]. cbn [Z.eqb EINTR Pos.eqb].
      apply writex_loop_out_only. reflexivity.
  - destruct p as [|b p]; [cbn; auto|].
    cbn [app writex_loop]. destruct a as [n| |e].
    + apply IH.
    + cbn. auto.
    + destruct (e =? EINTR); [apply IH | cbn; auto].
Qed.

Lemma firstn_plus (l : list byte) n k :
  (n <= length l)%nat ->
  firstn (n + k) l = firstn n l ++ firstn k (skipn n l).
Proof.
  intros Hn. rewrite <- (firstn_skipn n l) at 1.
  rewrite <- (firstn_length_le l Hn) at 1. apply firstn_app_2.
Qed.

(** A zero return, or a failure other than [EINTR], ends the loop wherever
    it comes: after answers that only cut writes short or interrupted them,
    and that left part of the span unsent, the status is -1, what those
    answers took has gone out and nothing more, and the sink is not asked
    again. *)
Lemma writex_loop_refused pre : forall r rest st p,
  Forall benign pre ->
  (accepted pre < length p)%nat ->
  (r = Eof \/ exists e, r = Failed e /\ e <> EINTR) ->
  exists st',
    writex_loop (pre ++ r :: rest) st p = (-1, st') /\
    out st' = out st ++ firstn (accepted pre) p /\
    pending st' = rest.
Proof.
  induction pre as [|a pre IH]; intros r rest st p Hb Hacc Hr.
  - cbn [accepted] in Hacc. destruct p as [|b p]; [cbn in Hacc; lia|].
    cbn [app accepted firstn]. rewrite app_nil_r.
    destruct Hr as [->|[e [-> He]]]; cbn [writex_loop].
    + eexists. split; [reflexivity|]. cbn. auto.
    + apply Z.eqb_neq in He. rewrite He.
      eexists. split; [reflexivity|]. cbn. auto.
  - apply Forall_cons_iff in Hb. destruct Hb as [Ha Hb].
    destruct p as [|b p]; [cbn in Hacc; lia|].
    cbn [app writex_loop]. destruct a as [n| |e]; cbn in Ha.
    + cbn [accepted] in Hacc.
      destruct (IH r rest (emit (firstn (Pos.to_nat n) (b :: p)) st)
                  (skipn (Pos.to_nat n) (b :: p)) Hb) as [st' [Hw [Ho Hp]]].
      * rewrite length_skipn. lia.
      * exact Hr.
      * exists st'. split; [exact Hw|]. split; [|exact Hp].
        cbn [accepted]. rewrite Ho. cbn [emit out].
        rewrite <- app_assoc, firstn_plus by lia. reflexivity.
    + contradiction.
    + subst e. cbn [Z.eqb EINTR Pos.eqb accepted] in *.
      destruct (IH r rest (set_errno 4 st) (b :: p) Hb Hacc Hr)
        as [st' [Hw [Ho Hp]]].
      exists st'. split; [exact Hw|]. split; [exact Ho | exact Hp].
Qed.

End Writex.

(** ** Rows of a buffer *)

Section Rows.

Variable ls : nat.

Lemma concat_uniform_length rows :
  uniform ls rows -> length (concat rows) = (length rows * ls)%nat.
Proof.
  induction 1 as [|r rows Hr _ IH]; [reflexivity|].
  cbn. rewrite length_app, IH, Hr. reflexivity.
Qed.

Lemma row_at rows extra : forall k,
  uniform ls rows -> (k < length rows)%nat ->
  firstn ls (skipn (k * ls) (concat rows ++ extra)) = nth k rows [].
Proof.
  induction rows as [|r rows IH]; intros k Hu Hk; [cbn in Hk; lia|].
  apply Forall_cons_iff in Hu. destruct Hu as [Hr Hu'].
  cbn [concat]. rewrite <- app_assoc. destruct k as [|k].
  - cbn [Nat.mul skipn nth]. rewrite firstn_app, Hr, Nat.sub_diag, firstn_O, app_nil_r.
    rewrite <- Hr. apply firstn_all.
  - cbn [Nat.mul nth]. rewrite skipn_app, Hr.
    rewrite (skipn_all2 r) by lia.
    replace (ls + k * ls - ls)%nat with (k * ls)%nat by lia.
    cbn [app]. apply IH; [exact Hu' | cbn in Hk; lia].
Qed.

Lemma read_at_row rows extra k :
  uniform ls rows -> (k < length rows)%nat ->
  read_at (concat rows ++ extra) (Z.of_nat (k * ls)) (Z.of_nat ls)
  = Some (nth k rows []).
Proof.
  intros Hu Hk. unfold read_at.
  assert (Hlen : (Z.of_nat (k * ls) + Z.of_nat ls
                  <= Z.of_nat (length (concat rows ++ extra)))).
  { rewrite length_app, (concat_uniform_length _ Hu). nia. }
  replace (0 <=? Z.of_nat (k * ls)) with true by (symmetry; apply Z.leb_le; lia).
  replace (0 <=? Z.of_nat ls) with true by (symmetry; apply Z.leb_le; lia).
  replace (_ <=? _) with true by (symmetry; apply Z.leb_le; exact Hlen).
  cbn [andb]. rewrite !Nat2Z.id. f_equal. apply row_at; assumption.
Qed.

Lemma firstn_snoc (rows : list (list byte)) : forall k,
  (k < length rows)%nat ->
  firstn (S k) rows = firstn k rows ++ [nth k rows []].
Proof.
  induction rows as [|r rows IH]; intros k Hk; [cbn in Hk; lia|].
  destruct k as [|k]; [reflexivity|].
  cbn [firstn nth app]. f_equal. apply IH. cbn in Hk. lia.
Qed.

Lemma rows_of_uniform n : forall data,
  (n * ls <= length data)%nat -> uniform ls (rows_of n ls data).
Proof.
  induction n as [|n IH]; intros data Hn; [constructor|].
  cbn [rows_of]. constructor.
  - apply firstn_length_le. lia.
  - apply IH. rewrite length_skipn. lia.
Qed.

Lemma rows_of_length n data : length (rows_of n ls data) = n.
Proof.
  revert data. induction n as [|n IH]; intros data; [reflexivity|].
  cbn. now rewrite IH.
Qed.

Lemma rows_of_concat n : forall data,
  concat (rows_of n ls data) ++ skipn (n * ls) data = data.
Proof.
  induction n as [|n IH]; intros data; [reflexivity|].
  cbn [rows_of concat Nat.mul]. rewrite <- app_assoc.
  rewrite <- (firstn_skipn ls data) at 4. f_equal.
  rewrite Nat.add_comm, <- skipn_skipn. apply IH.
Qed.

End Rows.

(** ** The row loop and the encoder *)

(** Moving the cursor back by one row never wraps while it stays inside a
    buffer that fits the address space. *)
Lemma cursor_step ls total n :
  Z.of_nat (total * ls) < two32 ->
  (S n <= total)%nat ->
  u32 (Z.of_nat (S n * ls) - Z.of_nat ls) = Z.of_nat (n * ls).
Proof.
  intros Hfit Hn.
  replace (Z.of_nat (S n * ls) - Z.of_nat ls) with (Z.of_nat (n * ls)) by lia.
  apply u32_small. unfold in_u32. nia.
Qed.

Lemma write_rows_complete ls rows extra : forall n st,
  uniform ls rows ->
  Z.of_nat (length rows * ls) < two32 ->
  (n <= length rows)%nat ->
  Forall benign (pending st) ->
  exists st',
    write_rows n st (concat rows ++ extra) (Z.of_nat (n * ls)) (Z.of_nat ls)
    = Some (NO_ERROR, st') /\
    out st' = out st ++ concat (rev (firstn n rows)) /\
    trace st' = trace st /\
    Forall benign (pending st').
Proof.
  induction n as [|n IH]; intros st Hu Hfit Hn Hb.
  - exists st. cbn. rewrite app_nil_r. auto.
  - cbn [write_rows].
    rewrite (cursor_step ls (length rows) n) by (assumption || lia).
    rewrite read_at_row by (assumption || lia).
    destruct (writex_loop_benign (pending st) st (nth n rows []) Hb)
      as [st1 [Hw Hb1]].
    unfold writex. rewrite Hw. cbn [Z.eqb].
    destruct (IH st1 Hu Hfit ltac:(lia) Hb1) as [st' [Hr [Ho [Ht Hb']]]].
    exists st'. split; [exact Hr|]. split; [|split; [|exact Hb']].
    + rewrite Ho, (writex_loop_success _ _ _ _ Hw), <- app_assoc. f_equal.
      rewrite firstn_snoc by lia. rewrite rev_app_distr. reflexivity.
    + rewrite Ht. destruct (writex_loop_prefix _ _ _ _ _ Hw) as [k [_ Hk]].
      exact Hk.
Qed.

(** Whatever the sink answers, the loop ends, inside the buffer, and the sink
    has received a prefix of the rows in reversed order. *)
Lemma write_rows_any ls rows extra : forall n st,
  uniform ls rows ->
  Z.of_nat (length rows * ls) < two32 ->
  (n <= length rows)%nat ->
  exists r st' k,
    write_rows n st (concat rows ++ extra) (Z.of_nat (n * ls)) (Z.of_nat ls)
    = Some (r, st') /\
    out st' = out st ++ firstn k (concat (rev (firstn n rows))).
Proof.
  induction n as [|n IH]; intros st Hu Hfit Hn.
  - exists NO_ERROR, st, 0%nat. cbn. now rewrite app_nil_r.
  - cbn [write_rows].
    rewrite (cursor_step ls (length rows) n) by (assumption || lia).
    rewrite read_at_row by (assumption || lia).
    rewrite firstn_snoc by lia. rewrite rev_app_distr. cbn [rev app concat].
    unfold writex. destruct (writex_loop _ st _) as [r1 st1] eqn:Hw.
    destruct (r1 =? 0) eqn:Er.
    + apply Z.eqb_eq in Er. subst r1.
      destruct (IH st1 Hu Hfit ltac:(lia)) as [r [st' [k [Hr Ho]]]].
      exists r, st', (length (nth n rows []) + k)%nat. split; [exact Hr|].
      rewrite Ho, (writex_loop_success _ _ _ _ Hw), <- app_assoc, firstn_app_2.
      reflexivity.
    + destruct (writex_loop_prefix _ _ _ _ _ Hw) as [k [Ho _]].
      exists (- errno st1), (LOGE "write()" (errno st1) st1),
             (Nat.min k (length (nth n rows []))).
      split; [reflexivity|]. cbn [LOGE record out]. rewrite Ho. f_equal.
      rewrite firstn_app.
      replace (Nat.min k (length (nth n rows [])) - length (nth n rows []))%nat
        with 0%nat by lia.
      cbn [firstn]. now rewrite app_nil_r, firstn_min.
Qed.

(** The cursor and the line size the encoder computes, for a buffer that holds
    the rows. *)
Lemma row_loop_start info ls (rows : list (list byte)) st data :
  Z.of_nat (length rows) = h info ->
  (rows <> [] -> Z.of_nat ls = bytesPerPixel (pixelFormatInfo info) * w info) ->
  Z.of_nat (length rows * ls) < two32 ->
  write_rows (Z.to_nat (h info)) st data
    (u32 (u32 (bytesPerPixel (pixelFormatInfo info) * w info) * h info))
    (u32 (bytesPerPixel (pixelFormatInfo info) * w info))
  = write_rows (length rows) st data
      (Z.of_nat (length rows * ls)) (Z.of_nat ls).
Proof.
  intros Hh Hls Hfit. rewrite <- Hh, Nat2Z.id.
  destruct rows as [|r rows']; [reflexivity|].
  assert (Hne : r :: rows' <> []) by discriminate.
  assert (Hpos : (1 <= length (r :: rows'))%nat) by (cbn; lia).
  remember (r :: rows') as rows eqn:Erows. clear Erows.
  rewrite <- (Hls Hne).
  assert (Hl : in_u32 (Z.of_nat ls)) by (unfold in_u32; nia).
  rewrite (u32_small _ Hl).
  replace (u32 (Z.of_nat ls * Z.of_nat (length rows)))
    with (Z.of_nat (length rows * ls)); [reflexivity|].
  symmetry. rewrite <- Nat2Z.inj_mul, Nat.mul_comm. apply u32_small.
  unfold in_u32. lia.
Qed.

Lemma write_data_complete junk st info fb ls rows extra len :
  fill_fbinfo junk info = Some fb ->
  Forall benign (pending st) ->
  Z.of_nat (length rows) = h info ->
  uniform ls rows ->
  (rows <> [] -> Z.of_nat ls = bytesPerPixel (pixelFormatInfo info) * w info) ->
  Z.of_nat (length rows * ls) < two32 ->
  exists st',
    write_data junk st info (concat rows ++ extra) len = Some (NO_ERROR, st') /\
    out st' = out st ++ fbinfo_image fb ++ concat (rev rows) /\
    trace st' = trace st /\
    Forall benign (pending st').
Proof.
  intros Hfb Hb Hh Hu Hls Hfit. unfold write_data. rewrite Hfb.
  destruct (writex_loop_benign (pending st) st (fbinfo_image fb) Hb)
    as [st1 [Hw Hb1]].
  unfold writex at 1. rewrite Hw. cbn [Z.eqb].
  pose proof (writex_loop_success _ _ _ _ Hw) as Ho1.
  destruct (writex_loop_prefix _ _ _ _ _ Hw) as [k [_ Ht1]].
  rewrite (row_loop_start info ls rows st1 _ Hh Hls Hfit).
  destruct (write_rows_complete ls rows extra (length rows) st1
              Hu Hfit (Nat.le_refl _) Hb1) as [st' [Hr [Ho [Ht Hb']]]].
  exists st'. split; [exact Hr|]. split; [|split; [congruence | exact Hb']].
  rewrite Ho, Ho1, firstn_all, <- app_assoc. reflexivity.
Qed.

(** On any sink the encoder returns, and what the sink has received is a
    prefix of the header followed by the rows in reversed order. *)
Lemma write_data_any junk st info fb ls rows extra len :
  fill_fbinfo junk info = Some fb ->
  Z.of_nat (length rows) = h info ->
  uniform ls rows ->
  (rows <> [] -> Z.of_nat ls = bytesPerPixel (pixelFormatInfo info) * w info) ->
  Z.of_nat (length rows * ls) < two32 ->
  exists r st' k,
    write_data junk st info (concat rows ++ extra) len = Some (r, st') /\
    out st' = out st ++ firstn k (fbinfo_image fb ++ concat (rev rows)).
Proof.
  intros Hfb Hh Hu Hls Hfit. unfold write_data. rewrite Hfb.
  unfold writex at 1. destruct (writex_loop _ st _) as [r1 st1] eqn:Hw.
  destruct (r1 =? 0) eqn:Er.
  - apply Z.eqb_eq in Er. subst r1.
    rewrite (row_loop_start info ls rows st1 _ Hh Hls Hfit).
    destruct (write_rows_any ls rows extra (length rows) st1
                Hu Hfit (Nat.le_refl _)) as [r [st' [k [Hr Ho]]]].
    exists r, st', (length (fbinfo_image fb) + k)%nat. split; [exact Hr|].
    rewrite Ho, (writex_loop_success _ _ _ _ Hw), firstn_all, <- app_assoc,
      firstn_app_2.
    reflexivity.
  - destruct (writex_loop_prefix _ _ _ _ _ Hw) as [k [Ho _]].
    exists (- errno st1), (LOGE "write()" (errno st1) st1),
           (Nat.min k (length (fbinfo_image fb))).
    split; [reflexivity|]. cbn [LOGE record out]. rewrite Ho. f_equal.
    rewrite firstn_app.
    replace (Nat.min k (length (fbinfo_image fb)) - length (fbinfo_image fb))%nat
      with 0%nat by lia.
    cbn [firstn]. now rewrite app_nil_r, firstn_min.
Qed.

(** ** The header *)

Lemma get_le32_member : forall (ms : list Z) (k : nat),
  (k < length ms)%nat ->
  get_le32 (flat_map le32 ms) (4 * k) = u32 (nth k ms 0).
Proof.
  induction ms as [|m ms IH]; intros k Hk; [cbn in Hk; lia|].
  destruct k as [|k].
  - unfold get_le32. cbn [flat_map Nat.mul skipn nth].
    change (firstn 4 (le32 m ++ flat_map le32 ms)) with (le32 m).
    apply Z_of_le_le32.
  - replace (4 * S k)%nat with (4 * k + 4)%nat by lia.
    unfold get_le32. cbn [flat_map nth].
    rewrite <- skipn_skipn.
    change (skipn 4 (le32 m ++ flat_map le32 ms)) with (flat_map le32 ms).
    apply IH. cbn in Hk. lia.
Qed.

Lemma get_le32_app (a b : list byte) (off : nat) :
  (off + 4 <= length a)%nat -> get_le32 (a ++ b) off = get_le32 a off.
Proof.
  intros H. unfold get_le32. rewrite skipn_app, firstn_app, length_skipn.
  replace (off - length a)%nat with 0%nat by lia.
  replace (4 - (length a - off))%nat with 0%nat by lia.
  cbn [skipn firstn]. now rewrite app_nil_r.
Qed.

Lemma fill_fbinfo_supported junk info :
  supported info -> exists fb, fill_fbinfo junk info = Some fb.
Proof.
  intros [H|H]; unfold fill_fbinfo; rewrite H; cbn; eauto.
Qed.

(** The alpha members are never assigned: they leave [fill_fbinfo] as they
    were in the storage. *)
Lemma fill_fbinfo_alpha junk info fb :
  fill_fbinfo junk info = Some fb ->
  alpha_offset fb = alpha_offset junk /\ alpha_length fb = alpha_length junk.
Proof.
  unfold fill_fbinfo.
  destruct (_ =? PIXEL_FORMAT_RGBA_8888); [intros [= <-]; auto|].
  destruct (_ =? PIXEL_FORMAT_RGB_565); [intros [= <-]; auto|].
  discriminate.
Qed.



(** C2.  The encoder assigns no value to the alpha members: on a frame of
    format RGBA-8888 the header that reaches the sink carries, at byte offsets
    44 and 48, whatever the storage of the local struct held, here two nonzero
    words, not 0 and 0. *)
Theorem alpha_members_left_unassigned :
  exists st',
    write_data stale_storage clean info_8888_4x2 (ramp 32) 32
    = Some (NO_ERROR, st') /\
    get_le32 (out st') 44 = 3735928559 /\
    get_le32 (out st') 48 = 4294967295.
Proof.
  eexists. split; [vm_compute; reflexivity|].
  split; vm_compute; reflexivity.
Qed.

(** ** Unsupported formats *)

(** C6.  For a geometry whose format is neither RGBA-8888 nor RGB-565 the
    encoder returns [BAD_VALUE]; the sink receives nothing and is not even
    called. *)
Theorem unsupported_format_rejected junk st info data len :
  format (pixelFormatInfo info) <> PIXEL_FORMAT_RGBA_8888 ->
  format (pixelFormatInfo info) <> PIXEL_FORMAT_RGB_565 ->
  exists st',
    write_data junk st info data len = Some (BAD_VALUE, st') /\
    out st' = out st /\
    pending st' = pending st.
Proof.
  intros H1 H2. unfold write_data, fill_fbinfo.
  apply Z.eqb_neq in H1, H2. rewrite H1, H2.
  eexists. split; [reflexivity|]. cbn. auto.
Qed.

Lemma unsupported_format_rejected_witness :
  exists st',
    write_data stale_storage choppy info_other (ramp 24) 24
    = Some (BAD_VALUE, st') /\
    out st' = out choppy /\
    pending st' = pending choppy.
Proof.
  apply (unsupported_format_rejected stale_storage choppy info_other (ramp 24) 24).
  - vm_compute. discriminate.
  - vm_compute. discriminate.
Defined.

(** ** Row order *)

Lemma uniform_of_Z (rows : list (list byte)) (r : list byte) (z : Z) :
  Z.of_nat (length r) = z ->
  Forall (fun r' => Z.of_nat (length r') = z) rows ->
  uniform (length r) rows.
Proof.
  intros Hr H. unfold uniform. eapply Forall_impl; [|exact H].
  cbn. intros r' Hr'. lia.
Qed.

(** C4.  For a geometry of a supported format and a buffer made of [h] rows
    of [bytesPerPixel * w] bytes each, the encoder returns, and the sink has
    received a prefix of the header followed by the rows in reversed order,
    each row as it was.  On a sink that refuses nothing the encoder returns
    [NO_ERROR] and the sink has received all of it; with no rows, the header
    alone. *)
Theorem rows_reversed junk st info rows len :
  supported info ->
  Z.of_nat (length rows) = h info ->
  Forall (fun r => Z.of_nat (length r)
                   = bytesPerPixel (pixelFormatInfo info) * w info) rows ->
  Z.of_nat (length (concat rows)) < two32 ->
  exists fb,
    fill_fbinfo junk info = Some fb /\
    (exists r st' k,
       write_data junk st info (concat rows) len = Some (r, st') /\
       out st' = out st ++ firstn k (fbinfo_image fb ++ concat (rev rows))) /\
    (Forall benign (pending st) ->
     exists st',
       write_data junk st info (concat rows) len = Some (NO_ERROR, st') /\
       out st' = out st ++ fbinfo_image fb ++ concat (rev rows) /\
       (h info = 0 -> out st' = out st ++ fbinfo_image fb)).
Proof.
  intros Hs Hh Hrows Hfit.
  destruct (fill_fbinfo_supported junk info Hs) as [fb Hfb].
  exists fb. split; [exact Hfb|].
  assert (Hex : exists ls, uniform ls rows /\
            (rows <> [] ->
             Z.of_nat ls = bytesPerPixel (pixelFormatInfo info) * w info)).
  { destruct rows as [|r rows'].
    - exists 0%nat. split; [constructor | congruence].
    - exists (length r). inversion Hrows as [|? ? Hr Hrest]; subst. split.
      + constructor; [reflexivity|]. eapply uniform_of_Z; eauto.
      + intros _. exact Hr. }
  destruct Hex as [ls [Hu Hls]].
  rewrite (concat_uniform_length ls rows Hu) in Hfit.
  split.
  - destruct (write_data_any junk st info fb ls rows [] len
                Hfb Hh Hu Hls Hfit) as [r [st' [k [Hr Ho]]]].
    rewrite app_nil_r in Hr. eauto.
  - intros Hb.
    destruct (write_data_complete junk st info fb ls rows [] len
                Hfb Hb Hh Hu Hls Hfit) as [st' [Hr [Ho _]]].
    rewrite app_nil_r in Hr.
    exists st'. repeat split; try assumption.
    intros H0. rewrite H0 in Hh. destruct rows; [|discriminate Hh].
    rewrite Ho. cbn [rev concat]. now rewrite app_nil_r.
Qed.

Lemma rows_reversed_witness :
  exists fb,
    fill_fbinfo stale_storage info_565_2x2 = Some fb /\
    (exists r st' k,
       write_data stale_storage choppy info_565_2x2 (concat rows_565_2x2) 0
       = Some (r, st') /\
       out st' = out choppy
                 ++ firstn k (fbinfo_image fb ++ concat (rev rows_565_2x2))) /\
    (exists st',
       write_data stale_storage choppy info_565_2x2 (concat rows_565_2x2) 0
       = Some (NO_ERROR, st') /\
       out st' = out choppy ++ fbinfo_image fb ++ concat (rev rows_565_2x2)).
Proof.
  destruct (rows_reversed stale_storage choppy info_565_2x2 rows_565_2x2 0)
    as [fb [Hfb [Hany Hall]]].
  - right. reflexivity.
  - reflexivity.
  - repeat constructor.
  - reflexivity.
  - exists fb. split; [exact Hfb|]. split; [exact Hany|].
    destruct Hall as [st' [Hr [Ho _]]]; [repeat constructor|].
    exists st'. split; assumption.
Defined.

(** ** The [len] argument *)

Lemma concat_rev_length ls rows :
  uniform ls rows -> length (concat (rev rows)) = (length rows * ls)%nat.
Proof.
  intros Hu. rewrite (concat_uniform_length ls).
  - now rewrite length_rev.
  - apply Forall_rev, Hu.
Qed.

(** Whatever [len] says, the payload is [h] rows of [bytesPerPixel * w]
    bytes when the memory behind [data] holds them and the sink refuses
    nothing. *)
Lemma write_data_payload junk st info data len :
  supported info ->
  Forall benign (pending st) ->
  0 <= h info ->
  0 <= bytesPerPixel (pixelFormatInfo info) * w info ->
  h info * (bytesPerPixel (pixelFormatInfo info) * w info)
    <= Z.of_nat (length data) ->
  Z.of_nat (length data) < two32 ->
  exists fb st' pixels,
    fill_fbinfo junk info = Some fb /\
    write_data junk st info data len = Some (NO_ERROR, st') /\
    out st' = out st ++ fbinfo_image fb ++ pixels /\
    Z.of_nat (length pixels)
    = h info * bytesPerPixel (pixelFormatInfo info) * w info.
Proof.
  intros Hs Hb Hh Hl Hin Hfit.
  destruct (fill_fbinfo_supported junk info Hs) as [fb Hfb].
  set (n := Z.to_nat (h info)).
  set (ls := Z.to_nat (bytesPerPixel (pixelFormatInfo info) * w info)).
  assert (Hn : (n * ls <= length data)%nat) by (subst n ls; nia).
  pose proof (rows_of_uniform ls n data Hn) as Hu.
  pose proof (rows_of_length ls n data) as Hlen.
  destruct (write_data_complete junk st info fb ls (rows_of n ls data)
              (skipn (n * ls) data) len Hfb Hb) as [st' [Hr [Ho _]]].
  - rewrite Hlen. subst n. lia.
  - exact Hu.
  - intros _. subst ls. lia.
  - rewrite Hlen. lia.
  - rewrite rows_of_concat in Hr.
    exists fb, st', (concat (rev (rows_of n ls data))).
    repeat split; try assumption.
    rewrite (concat_rev_length ls _ Hu), Hlen. subst n ls. nia.
Qed.

(** C9.  [write_data] never looks at [len]: two calls that differ in [len]
    alone give the same result and the same state.  Whatever [len] says, when
    the memory behind [data] holds [h] rows of [bytesPerPixel * w] bytes and the
    sink refuses nothing, the sink receives, after the header,
    [h * bytesPerPixel * w] bytes. *)
Theorem len_ignored :
  (forall junk st info data len1 len2,
     write_data junk st info data len1 = write_data junk st info data len2) /\
  (forall junk st info data len,
     supported info ->
     Forall benign (pending st) ->
     0 <= h info ->
     0 <= bytesPerPixel (pixelFormatInfo info) * w info ->
     h info * (bytesPerPixel (pixelFormatInfo info) * w info)
       <= Z.of_nat (length data) ->
     Z.of_nat (length data) < two32 ->
     exists fb st' pixels,
       fill_fbinfo junk info = Some fb /\
       write_data junk st info data len = Some (NO_ERROR, st') /\
       out st' = out st ++ fbinfo_image fb ++ pixels /\
       Z.of_nat (length pixels)
       = h info * bytesPerPixel (pixelFormatInfo info) * w info).
Proof.
  split; [reflexivity|]. intros. now apply write_data_payload.
Qed.

Lemma len_ignored_witness :
  write_data stale_storage choppy info_565_2x2 (concat rows_565_2x3) 0
  = write_data stale_storage choppy info_565_2x2 (concat rows_565_2x3) 8 /\
  exists fb st' pixels,
    fill_fbinfo stale_storage info_565_2x2 = Some fb /\
    write_data stale_storage choppy info_565_2x2 (concat rows_565_2x3) 0
    = Some (NO_ERROR, st') /\
    out st' = out choppy ++ fbinfo_image fb ++ pixels /\
    Z.of_nat (length pixels)
    = h info_565_2x2 * bytesPerPixel (pixelFormatInfo info_565_2x2)
      * w info_565_2x2.
Proof.
  split.
  - apply (proj1 len_ignored).
  - apply (proj2 len_ignored stale_storage choppy info_565_2x2
             (concat rows_565_2x3) 0).
    + right. reflexivity.
    + repeat constructor.
    + vm_compute. discriminate.
    + vm_compute. discriminate.
    + vm_compute. discriminate.
    + reflexivity.
Defined.

(** ** The channel layout on the sink *)

Lemma fill_fbinfo_RGBA_8888 junk info fb :
  is_RGBA_8888 info ->
  fill_fbinfo junk info = Some fb ->
  bpp fb = 32 /\
  (red_offset fb, red_length fb) = (0, 8) /\
  (green_offset fb, green_length fb) = (8, 8) /\
  (blue_offset fb, blue_length fb) = (16, 8).
Proof.
  intros [Hf Hb]. unfold fill_fbinfo. rewrite Hf, Hb. cbn.
  intros [= <-]. cbn. auto.
Qed.

Lemma fill_fbinfo_RGB_565 junk info fb :
  is_RGB_565 info ->
  fill_fbinfo junk info = Some fb ->
  bpp fb = 16 /\
  (red_offset fb, red_length fb) = (11, 5) /\
  (green_offset fb, green_length fb) = (5, 6) /\
  (blue_offset fb, blue_length fb) = (0, 5).
Proof.
  intros [Hf Hb]. unfold fill_fbinfo. rewrite Hf, Hb. cbn.
  intros [= <-]. cbn. auto.
Qed.

(** The word at byte offset [off = 4 * k] of a stream that starts with the
    image of a header is the header's [k]-th member. *)
Lemma sent_header_word fb rest k off :
  off = (4 * k)%nat -> (k < 13)%nat ->
  get_le32 (fbinfo_image fb ++ rest) off = u32 (nth k (fbinfo_members fb) 0).
Proof.
  intros -> Hk.
  assert (Hlen : length (fbinfo_image fb) = 52%nat) by reflexivity.
  rewrite get_le32_app by lia. apply get_le32_member. exact Hk.
Qed.

(** The bits per pixel and the channel words of the header, read off what
    the sink has received in a run that sent the header. *)
Lemma sent_channels fb (st st' : world) pixels :
  out st' = out st ++ fbinfo_image fb ++ pixels ->
  let sent := skipn (length (out st)) (out st') in
  get_le32 sent 4 = u32 (bpp fb) /\
  (get_le32 sent 20, get_le32 sent 24)
  = (u32 (red_offset fb), u32 (red_length fb)) /\
  (get_le32 sent 36, get_le32 sent 40)
  = (u32 (green_offset fb), u32 (green_length fb)) /\
  (get_le32 sent 28, get_le32 sent 32)
  = (u32 (blue_offset fb), u32 (blue_length fb)).
Proof.
  intros Ho. cbv zeta.
  rewrite Ho, skipn_app, Nat.sub_diag, skipn_all. cbn [app skipn].
  rewrite (sent_header_word fb pixels 1 4), (sent_header_word fb pixels 5 20),
    (sent_header_word fb pixels 6 24), (sent_header_word fb pixels 7 28),
    (sent_header_word fb pixels 8 32), (sent_header_word fb pixels 9 36),
    (sent_header_word fb pixels 10 40) by (reflexivity || lia).
  cbn [nth fbinfo_members]. auto.
Qed.

(** C5.  For a geometry of format RGBA-8888 the header has 32 bits per pixel
    and the channels red (0, 8), green (8, 8), blue (16, 8); for a geometry of
    format RGB-565 it has 16 bits per pixel and the channels red (11, 5),
    green (5, 6), blue (0, 5).  These are the members [write_data] fills in,
    and, in a run over a buffer that holds the frame on a sink that refuses
    nothing, the words the sink receives: bits per pixel at byte offset 4, the
    red pair at 20 and 24, the blue pair at 28 and 32, the green pair at 36
    and 40. *)
Theorem header_channels :
  (forall junk info,
     (is_RGBA_8888 info ->
      exists fb, fill_fbinfo junk info = Some fb /\
        bpp fb = 32 /\
        (red_offset fb, red_length fb) = (0, 8) /\
        (green_offset fb, green_length fb) = (8, 8) /\
        (blue_offset fb, blue_length fb) = (16, 8)) /\
     (is_RGB_565 info ->
      exists fb, fill_fbinfo junk info = Some fb /\
        bpp fb = 16 /\
        (red_offset fb, red_length fb) = (11, 5) /\
        (green_offset fb, green_length fb) = (5, 6) /\
        (blue_offset fb, blue_length fb) = (0, 5))) /\
  (forall junk st info data len,
     Forall benign (pending st) ->
     0 <= h info ->
     0 <= bytesPerPixel (pixelFormatInfo info) * w info ->
     h info * (bytesPerPixel (pixelFormatInfo info) * w info)
       <= Z.of_nat (length data) ->
     Z.of_nat (length data) < two32 ->
     (is_RGBA_8888 info ->
      exists st',
        write_data junk st info data len = Some (NO_ERROR, st') /\
        let sent := skipn (length (out st)) (out st') in
        get_le32 sent 4 = 32 /\
        (get_le32 sent 20, get_le32 sent 24) = (0, 8) /\
        (get_le32 sent 36, get_le32 sent 40) = (8, 8) /\
        (get_le32 sent 28, get_le32 sent 32) = (16, 8)) /\
     (is_RGB_565 info ->
      exists st',
        write_data junk st info data len = Some (NO_ERROR, st') /\
        let sent := skipn (length (out st)) (out st') in
        get_le32 sent 4 = 16 /\
        (get_le32 sent 20, get_le32 sent 24) = (11, 5) /\
        (get_le32 sent 36, get_le32 sent 40) = (5, 6) /\
        (get_le32 sent 28, get_le32 sent 32) = (0, 5))).
Proof.
  split.
  - intros junk info. split; intros Hfmt.
    + destruct (fill_fbinfo_supported junk info (or_introl (proj1 Hfmt)))
        as [fb Hfb].
      exists fb. split; [exact Hfb|].
      exact (fill_fbinfo_RGBA_8888 junk info fb Hfmt Hfb).
    + destruct (fill_fbinfo_supported junk info (or_intror (proj1 Hfmt)))
        as [fb Hfb].
      exists fb. split; [exact Hfb|].
      exact (fill_fbinfo_RGB_565 junk info fb Hfmt Hfb).
  - intros junk st info data len Hb Hh Hl Hin Hfit. split; intros Hfmt.
    + destruct (write_data_payload junk st info data len
                  (or_introl (proj1 Hfmt)) Hb Hh Hl Hin Hfit)
        as [fb [st' [pixels [Hfb [Hr [Ho _]]]]]].
      exists st'. split; [exact Hr|].
      destruct (fill_fbinfo_RGBA_8888 junk info fb Hfmt Hfb)
        as [Hbpp [[= Hro Hrl] [[= Hgo Hgl] [= Hbo Hbl]]]].
      pose proof (sent_channels fb st st' pixels Ho) as Hs. cbv zeta in *.
      rewrite Hbpp, Hro, Hrl, Hgo, Hgl, Hbo, Hbl in Hs. exact Hs.
    + destruct (write_data_payload junk st info data len
                  (or_intror (proj1 Hfmt)) Hb Hh Hl Hin Hfit)
        as [fb [st' [pixels [Hfb [Hr [Ho _]]]]]].
      exists st'. split; [exact Hr|].
      destruct (fill_fbinfo_RGB_565 junk info fb Hfmt Hfb)
        as [Hbpp [[= Hro Hrl] [[= Hgo Hgl] [= Hbo Hbl]]]].
      pose proof (sent_channels fb st st' pixels Ho) as Hs. cbv zeta in *.
      rewrite Hbpp, Hro, Hrl, Hgo, Hgl, Hbo, Hbl in Hs. exact Hs.
Qed.

Lemma header_channels_witness :
  (exists fb, fill_fbinfo stale_storage info_8888_4x2 = Some fb /\
     bpp fb = 32 /\
     (red_offset fb, red_length fb) = (0, 8) /\
     (green_offset fb, green_length fb) = (8, 8) /\
     (blue_offset fb, blue_length fb) = (16, 8)) /\
  (exists st',
     write_data stale_storage choppy info_8888_4x2 (ramp 32) 32
     = Some (NO_ERROR, st') /\
     get_le32 (out st') 4 = 32 /\
     (get_le32 (out st') 20, get_le32 (out st') 24) = (0, 8) /\
     (get_le32 (out st') 36, get_le32 (out st') 40) = (8, 8) /\
     (get_le32 (out st') 28, get_le32 (out st') 32) = (16, 8)) /\
  (exists st',
     write_data stale_storage choppy info_565_2x2 (concat rows_565_2x2) 8
     = Some (NO_ERROR, st') /\
     get_le32 (out st') 4 = 16 /\
     (get_le32 (out st') 20, get_le32 (out st') 24) = (11, 5) /\
     (get_le32 (out st') 36, get_le32 (out st') 40) = (5, 6) /\
     (get_le32 (out st') 28, get_le32 (out st') 32) = (0, 5)).
Proof.
  destruct header_channels as [Hfill Hsent].
  split; [|split].
  - apply (proj1 (Hfill stale_storage info_8888_4x2)). split; reflexivity.
  - apply (proj1 (Hsent stale_storage choppy info_8888_4x2 (ramp 32) 32
                    ltac:(repeat constructor)
                    ltac:(vm_compute; discriminate)
                    ltac:(vm_compute; discriminate)
                    ltac:(vm_compute; discriminate)
                    eq_refl)).
    split; reflexivity.
  - apply (proj2 (Hsent stale_storage choppy info_565_2x2
                    (concat rows_565_2x2) 8
                    ltac:(repeat constructor)
                    ltac:(vm_compute; discriminate)
                    ltac:(vm_compute; discriminate)
                    ltac:(vm_compute; discriminate)
                    eq_refl)).
    split; reflexivity.
Defined.

(** ** The reliable writer, as its callers see it *)

(** C8.  An interruption ([EINTR]) answered by the sink at any point is
    retried with the same remaining span: the status and the bytes sent are
    those of the sink without that answer.  An answer of zero, or a failure
    other than [EINTR], is final wherever it comes, at the first write or
    after writes that were cut short or interrupted: the call ends with -1,
    what the earlier writes took has gone out, nothing more is sent and the
    sink is not asked again.  Status 0 means the sink received exactly the
    span, and that is the outcome on every sink that only cuts writes short
    or interrupts them. *)
Theorem writex_reliable :
  (forall st p pre post,
     pending st = pre ++ post ->
     let st_i := set_pending (pre ++ Failed EINTR :: post) st in
     fst (writex st_i p) = fst (writex st p) /\
     out (snd (writex st_i p)) = out (snd (writex st p))) /\
  (forall st p pre r rest,
     pending st = pre ++ r :: rest ->
     Forall benign pre ->
     (accepted pre < length p)%nat ->
     (r = Eof \/ exists e, r = Failed e /\ e <> EINTR) ->
     exists st',
       writex st p = (-1, st') /\
       out st' = out st ++ firstn (accepted pre) p /\
       pending st' = rest) /\
  (forall st p st',
     writex st p = (0, st') -> out st' = out st ++ p) /\
  (forall st p,
     Forall benign (pending st) ->
     exists st', writex st p = (0, st') /\ out st' = out st ++ p).
Proof.
  split; [|split; [|split]].
  - intros st p pre post Hp st_i. unfold writex, st_i. cbn [set_pending pending].
    rewrite Hp.
    destruct (writex_loop_skip_EINTR pre post st p) as [H1 H2].
    destruct (writex_loop_out_only (pre ++ Failed EINTR :: post)
                (set_pending (pre ++ Failed EINTR :: post) st) st p eq_refl)
      as [H3 H4].
    split; congruence.
  - intros st p pre r rest Hps Hb Hacc Hr. unfold writex. rewrite Hps.
    apply writex_loop_refused; assumption.
  - intros st p st' H. unfold writex in H.
    eapply writex_loop_success; eauto.
  - intros st p Hb. unfold writex.
    destruct (writex_loop_benign (pending st) st p Hb) as [st' [Hw _]].
    exists st'. split; [exact Hw|]. eapply writex_loop_success; eauto.
Qed.

Lemma writex_reliable_witness :
  (let st_i := set_pending ([Sent 3] ++ Failed EINTR :: [Sent 5]) choppy in
   fst (writex st_i (ramp 8))
   = fst (writex (set_pending [Sent 3; Sent 5] choppy) (ramp 8)) /\
   out (snd (writex st_i (ramp 8)))
   = out (snd (writex (set_pending [Sent 3; Sent 5] choppy) (ramp 8)))) /\
  (exists st',
     writex broken_pipe (ramp 8) = (-1, st') /\
     out st' = out broken_pipe ++ firstn 0 (ramp 8) /\ pending st' = []) /\
  (exists st',
     writex (set_pending [Sent 3; Failed EINTR; Failed 32; Sent 5] clean)
            (ramp 8) = (-1, st') /\
     out st' = out clean ++ firstn 3 (ramp 8) /\ pending st' = [Sent 5]) /\
  (exists st',
     writex (set_pending [Sent 3; Sent 2; Eof; Sent 5] clean)
            (ramp 8) = (-1, st') /\
     out st' = out clean ++ firstn 5 (ramp 8) /\ pending st' = [Sent 5]) /\
  out (snd (writex clean (ramp 8))) = out clean ++ ramp 8 /\
  (exists st', writex choppy (ramp 8) = (0, st') /\
               out st' = out choppy ++ ramp 8).
Proof.
  destruct writex_reliable as [H1 [H2 [H3 H4]]].
  split; [|split; [|split; [|split; [|split]]]].
  - apply (H1 (set_pending [Sent 3; Sent 5] choppy) (ramp 8) [Sent 3] [Sent 5]).
    reflexivity.
  - apply (H2 broken_pipe (ramp 8) [] (Failed 32) []).
    + reflexivity.
    + constructor.
    + vm_compute. lia.
    + right. exists 32. split; [reflexivity | vm_compute; discriminate].
  - apply (H2 (set_pending [Sent 3; Failed EINTR; Failed 32; Sent 5] clean)
              (ramp 8) [Sent 3; Failed EINTR] (Failed 32) [Sent 5]).
    + reflexivity.
    + repeat constructor.
    + vm_compute. lia.
    + right. exists 32. split; [reflexivity | vm_compute; discriminate].
  - apply (H2 (set_pending [Sent 3; Sent 2; Eof; Sent 5] clean)
              (ramp 8) [Sent 3; Sent 2] Eof [Sent 5]).
    + reflexivity.
    + repeat constructor.
    + vm_compute. lia.
    + left. reflexivity.
  - apply (H3 clean (ramp 8)). vm_compute. reflexivity.
  - apply (H4 choppy (ramp 8)). repeat constructor.
Defined.

(** ** Orientation *)

Lemma fill_fbinfo_geometry junk info fb :
  fill_fbinfo junk info = Some fb ->
  version fb = DDMS_RAWIMAGE_VERSION /\
  bpp fb = u32 (bytesPerPixel (pixelFormatInfo info) * 8) /\
  size fb = u32 (u32 (w info * h info) * bytesPerPixel (pixelFormatInfo info)) /\
  width fb = w info /\
  height fb = h info.
Proof.
  unfold fill_fbinfo.
  destruct (_ =? PIXEL_FORMAT_RGBA_8888); [intros [= <-]; cbn; auto 6|].
  destruct (_ =? PIXEL_FORMAT_RGB_565); [intros [= <-]; cbn; auto 6|].
  discriminate.
Qed.

(** The header built from the corrected geometry. *)
Lemma undo_rotation_header junk info fb :
  fill_fbinfo junk (undo_rotation info) = Some fb ->
  (Z.land (orientation info) eOrientationSwapMask <> 0 ->
   width fb = h info /\ height fb = w info) /\
  (Z.land (orientation info) eOrientationSwapMask = 0 ->
   width fb = w info /\ height fb = h info).
Proof.
  intros Hfb. apply fill_fbinfo_geometry in Hfb.
  destruct Hfb as [_ [_ [_ [Hw Hh]]]]. unfold undo_rotation in Hw, Hh.
  split; intros Hbit.
  - apply Z.eqb_neq in Hbit. rewrite Hbit in Hw, Hh. cbn in Hw, Hh. auto.
  - apply Z.eqb_eq in Hbit. rewrite Hbit in Hw, Hh. auto.
Qed.

(** ** [main] *)

Lemma count_events_app f t1 t2 :
  count_events f (t1 ++ t2) = (count_events f t1 + count_events f t2)%nat.
Proof. unfold count_events. now rewrite filter_app, length_app. Qed.

(** The run in which every service succeeds and the sink refuses nothing:
    exit code 0, the header of the corrected geometry and the rows in reversed
    order on the sink, one [munmap] and one [close]. *)
Lemma main_complete junk st e info fd ls rows :
  getDisplayInfo e = (0, info) ->
  ashmem_create_region e = Ok fd ->
  mmap e = Ok tt ->
  grabScreen e = (0, concat rows) ->
  supported (undo_rotation info) ->
  Forall benign (pending st) ->
  Z.of_nat (length rows) = h (undo_rotation info) ->
  uniform ls rows ->
  Z.of_nat ls = bytesPerPixel (pixelFormatInfo (undo_rotation info))
                * w (undo_rotation info) ->
  Z.of_nat (length rows * ls) < two32 ->
  exists fb st',
    fill_fbinfo junk (undo_rotation info) = Some fb /\
    main junk st e = Some (0, st') /\
    out st' = out st ++ fbinfo_image fb ++ concat (rev rows) /\
    count_events is_munmap (trace st') = S (count_events is_munmap (trace st)) /\
    count_events is_close (trace st') = S (count_events is_close (trace st)).
Proof.
  intros Hq Ha Hm Hg Hs Hb Hh Hu Hls Hfit.
  destruct (fill_fbinfo_supported junk _ Hs) as [fb Hfb].
  unfold main. rewrite Hq, Ha, Hm, Hg. cbn [Z.eqb negb].
  set (info' := undo_rotation info) in *.
  set (fb_size := u32 (u32 (w info' * h info')
                       * bytesPerPixel (pixelFormatInfo info'))).
  assert (Hsz : fb_size = Z.of_nat (length rows * ls)).
  { unfold fb_size, u32. rewrite Z.mul_mod_idemp_l by (unfold two32; lia).
    replace (w info' * h info' * bytesPerPixel (pixelFormatInfo info'))
      with (Z.of_nat (length rows * ls)) by nia.
    apply Z.mod_small. lia. }
  rewrite Hsz, Nat2Z.id.
  rewrite <- (concat_uniform_length ls rows Hu), firstn_all.
  set (st0 := record (GrabScreen 0 fd) _).
  destruct (write_data_complete junk st0 info' fb ls rows []
              (Z.of_nat (length (concat rows))) Hfb Hb Hh Hu (fun _ => Hls) Hfit)
    as [st1 [Hr [Ho [Ht _]]]].
  rewrite app_nil_r in Hr. rewrite Hr. cbn [Z.eqb negb NO_ERROR].
  exists fb. eexists. split; [exact Hfb|]. split; [reflexivity|].
  unfold finish.
  destruct (munmap e); cbn [snd out trace record LOGE set_errno];
    rewrite ?Ho, ?Ht; subst st0; cbn [out trace record];
    rewrite !count_events_app; cbn; (split; [reflexivity | split; lia]).
Qed.

(** The header that reaches the sink in such a run carries, at byte offsets 12
    and 16, the queried width and height, swapped when the swap bit is set. *)
Lemma main_header_dimensions junk st e info fd ls rows :
  getDisplayInfo e = (0, info) ->
  ashmem_create_region e = Ok fd ->
  mmap e = Ok tt ->
  grabScreen e = (0, concat rows) ->
  supported (undo_rotation info) ->
  Forall benign (pending st) ->
  Z.of_nat (length rows) = h (undo_rotation info) ->
  uniform ls rows ->
  Z.of_nat ls = bytesPerPixel (pixelFormatInfo (undo_rotation info))
                * w (undo_rotation info) ->
  Z.of_nat (length rows * ls) < two32 ->
  in_u32 (w info) -> in_u32 (h info) ->
  exists st',
    main junk st e = Some (0, st') /\
    let sent := skipn (length (out st)) (out st') in
    if Z.land (orientation info) eOrientationSwapMask =? 0
    then get_le32 sent 12 = w info /\ get_le32 sent 16 = h info
    else get_le32 sent 12 = h info /\ get_le32 sent 16 = w info.
Proof.
  intros Hq Ha Hm Hg Hs Hb Hh Hu Hls Hfit Hw Hh'.
  destruct (main_complete junk st e info fd ls rows Hq Ha Hm Hg Hs Hb Hh Hu Hls Hfit)
    as [fb [st' [Hfb [Hmain [Ho _]]]]].
  exists st'. split; [exact Hmain|]. cbn zeta.
  rewrite Ho, skipn_app, Nat.sub_diag, skipn_all. cbn [app skipn].
  assert (Hlen : length (fbinfo_image fb) = 52%nat) by reflexivity.
  rewrite !get_le32_app by lia.
  pose proof (get_le32_member (fbinfo_members fb) 3 ltac:(cbn; lia)) as H12.
  pose proof (get_le32_member (fbinfo_members fb) 4 ltac:(cbn; lia)) as H16.
  change (get_le32 (fbinfo_image fb) 12 = u32 (width fb)) in H12.
  change (get_le32 (fbinfo_image fb) 16 = u32 (height fb)) in H16.
  rewrite H12, H16.
  destruct (fill_fbinfo_geometry _ _ _ Hfb) as [_ [_ [_ [-> ->]]]].
  unfold undo_rotation.
  destruct (Z.land (orientation info) eOrientationSwapMask =? 0);
    cbn [w h]; split; apply u32_small; assumption.
Qed.

(** C7.  The header [main] has encoded is that of the geometry after
    [undo_rotation]: with the swap bit of the queried orientation set, its
    width is the queried height and its height the queried width; with the bit
    clear both are the queried values.  In a run where every service succeeds
    and the sink refuses nothing, these are the words at byte offsets 12 and
    16 of what standard output receives. *)
Theorem orientation_swap :
  (forall junk info fb,
     fill_fbinfo junk (undo_rotation info) = Some fb ->
     (Z.land (orientation info) eOrientationSwapMask <> 0 ->
      width fb = h info /\ height fb = w info) /\
     (Z.land (orientation info) eOrientationSwapMask = 0 ->
      width fb = w info /\ height fb = h info)) /\
  (forall junk st e info fd ls rows,
     getDisplayInfo e = (0, info) ->
     ashmem_create_region e = Ok fd ->
     mmap e = Ok tt ->
     grabScreen e = (0, concat rows) ->
     supported (undo_rotation info) ->
     Forall benign (pending st) ->
     Z.of_nat (length rows) = h (undo_rotation info) ->
     uniform ls rows ->
     Z.of_nat ls = bytesPerPixel (pixelFormatInfo (undo_rotation info))
                   * w (undo_rotation info) ->
     Z.of_nat (length rows * ls) < two32 ->
     in_u32 (w info) -> in_u32 (h info) ->
     exists st',
       main junk st e = Some (0, st') /\
       let sent := skipn (length (out st)) (out st') in
       (Z.land (orientation info) eOrientationSwapMask <> 0 ->
        get_le32 sent 12 = h info /\ get_le32 sent 16 = w info) /\
       (Z.land (orientation info) eOrientationSwapMask = 0 ->
        get_le32 sent 12 = w info /\ get_le32 sent 16 = h info)).
Proof.
  split; [exact undo_rotation_header|].
  intros junk st e info fd ls rows Hq Ha Hm Hg Hs Hb Hh Hu Hls Hfit Hw Hh'.
  destruct (main_header_dimensions junk st e info fd ls rows
              Hq Ha Hm Hg Hs Hb Hh Hu Hls Hfit Hw Hh') as [st' [Hmain Hd]].
  exists st'. split; [exact Hmain|]. cbv zeta in *.
  split; intros Hbit.
  - apply Z.eqb_neq in Hbit. now rewrite Hbit in Hd.
  - apply Z.eqb_eq in Hbit. now rewrite Hbit in Hd.
Qed.

Lemma orientation_swap_witness :
  (exists fb,
     fill_fbinfo stale_storage (undo_rotation info_565_rotated) = Some fb /\
     width fb = h info_565_rotated /\ height fb = w info_565_rotated) /\
  (exists fb,
     fill_fbinfo stale_storage (undo_rotation info_8888_4x2) = Some fb /\
     width fb = w info_8888_4x2 /\ height fb = h info_8888_4x2) /\
  (exists st',
     main stale_storage choppy (env_ok info_565_rotated (concat rows_565_2x3))
     = Some (0, st') /\
     get_le32 (out st') 12 = h info_565_rotated /\
     get_le32 (out st') 16 = w info_565_rotated).
Proof.
  destruct orientation_swap as [Hfill Hmain].
  split; [|split].
  - eexists. split; [reflexivity|].
    apply (proj1 (Hfill stale_storage info_565_rotated _ eq_refl)).
    vm_compute. discriminate.
  - eexists. split; [reflexivity|].
    apply (proj2 (Hfill stale_storage info_8888_4x2 _ eq_refl)).
    reflexivity.
  - destruct (Hmain stale_storage choppy
                (env_ok info_565_rotated (concat rows_565_2x3))
                info_565_rotated 3 4%nat rows_565_2x3)
      as [st' [Hrun [Hset _]]].
    + reflexivity.
    + reflexivity.
    + reflexivity.
    + reflexivity.
    + right. reflexivity.
    + repeat constructor.
    + reflexivity.
    + repeat constructor.
    + reflexivity.
    + reflexivity.
    + vm_compute. split; [discriminate | reflexivity].
    + vm_compute. split; [discriminate | reflexivity].
    + exists st'. split; [exact Hrun|]. apply Hset. vm_compute. discriminate.
Defined.

(** C1.  After the region was created and mapped, a refused grab makes
    [main] return -1 at once: the trace ends with the diagnostic and holds
    neither a [munmap] nor a [close]; a failed write of the encoder does the
    same.  Only the run that succeeds releases the mapping and the
    descriptor, once each. *)
Theorem release_skipped_on_failure :
  (exists st',
     main zero_storage clean env_grab_fails = Some (-1, st') /\
     trace st' = [AshmemCreate 32; Mmap 32 3; GrabScreen 0 3;
                  Log "grabScreen" (-32)] /\
     count_events is_munmap (trace st') = 0%nat /\
     count_events is_close (trace st') = 0%nat) /\
  (exists st',
     main zero_storage broken_pipe (env_ok info_8888_4x2 (ramp 32))
     = Some (-1, st') /\
     count_events is_munmap (trace st') = 0%nat /\
     count_events is_close (trace st') = 0%nat) /\
  (exists st',
     main zero_storage clean (env_ok info_8888_4x2 (ramp 32)) = Some (0, st') /\
     count_events is_munmap (trace st') = 1%nat /\
     count_events is_close (trace st') = 1%nat).
Proof.
  split; [|split]; eexists; (split; [vm_compute; reflexivity|]);
    repeat split; reflexivity.
Qed.

(** ** The status after a write that returns 0 *)

(** In a run where the memory behind [data] holds the frame and the sink
    refuses nothing, the [size] member is the number of bytes sent after the
    header, and both are [w * h * bytesPerPixel]. *)
Lemma complete_encode_size junk st info data len :
  supported info ->
  Forall benign (pending st) ->
  0 <= h info ->
  0 <= bytesPerPixel (pixelFormatInfo info) * w info ->
  h info * (bytesPerPixel (pixelFormatInfo info) * w info)
    <= Z.of_nat (length data) ->
  Z.of_nat (length data) < two32 ->
  exists fb st' pixels,
    fill_fbinfo junk info = Some fb /\
    write_data junk st info data len = Some (NO_ERROR, st') /\
    out st' = out st ++ fbinfo_image fb ++ pixels /\
    Z.of_nat (length pixels) = size fb /\
    size fb = w info * h info * bytesPerPixel (pixelFormatInfo info).
Proof.
  intros Hs Hb Hh Hl Hin Hfit.
  destruct (write_data_payload junk st info data len Hs Hb Hh Hl Hin Hfit)
    as [fb [st' [pixels [Hfb [Hr [Ho Hp]]]]]].
  exists fb, st', pixels. repeat split; try assumption.
  - rewrite Hp. destruct (fill_fbinfo_geometry _ _ _ Hfb) as [_ [_ [-> _]]].
    unfold u32. rewrite Z.mul_mod_idemp_l by (unfold two32; lia).
    symmetry. rewrite Z.mod_small; nia.
  - destruct (fill_fbinfo_geometry _ _ _ Hfb) as [_ [_ [-> _]]].
    unfold u32. rewrite Z.mul_mod_idemp_l by (unfold two32; lia).
    apply Z.mod_small. nia.
Qed.

(** C10.  With [errno] still 0, a sink whose first [write] returns 0 makes
    [writex] fail and [write_data] return [-errno], which is [NO_ERROR]:
    the encode reports success, [main] exits with 0, and the sink has received
    nothing, while the header would have announced 32 bytes. *)
Theorem success_reported_after_eof :
  exists fb st' st'',
    fill_fbinfo zero_storage info_8888_4x2 = Some fb /\
    size fb = 32 /\
    write_data zero_storage at_eof info_8888_4x2 (ramp 32) 32
    = Some (NO_ERROR, st') /\
    out st' = [] /\
    main zero_storage at_eof (env_ok info_8888_4x2 (ramp 32)) = Some (0, st'') /\
    out st'' = [].
Proof.
  do 3 eexists.
  split; [vm_compute; reflexivity|].
  split; [reflexivity|].
  split; [vm_compute; reflexivity|].
  split; [reflexivity|].
  split; [vm_compute; reflexivity|].
  reflexivity.
Qed.

(** * Further properties of the three functions *)

(** ** [writex]: what a status says, and what happens to [errno] *)

Lemma writex_loop_strict ps : forall st p r st',
  writex_loop ps st p = (r, st') ->
  (r = 0 /\ out st' = out st ++ p) \/
  (r = -1 /\ exists k, (k < length p)%nat /\ out st' = out st ++ firstn k p).
Proof.
  induction ps as [|a ps IH]; intros st p r st' H.
  - left. destruct p; inversion H; subst; cbn; rewrite ?app_nil_r; auto.
  - destruct p as [|b p].
    + left. inversion H; subst. cbn. rewrite app_nil_r. auto.
    + cbn [writex_loop] in H. destruct a as [n| |e].
      * apply IH in H. cbn [emit out] in H.
        destruct H as [[-> Ho]|[-> [k [Hk Ho]]]].
        -- left. split; [reflexivity|].
           now rewrite Ho, <- app_assoc, firstn_skipn.
        -- right. split; [reflexivity|]. rewrite length_skipn in Hk.
           exists (Pos.to_nat n + k)%nat. split; [lia|].
           rewrite Ho, <- app_assoc, firstn_plus by lia. reflexivity.
      * right. inversion H; subst. split; [reflexivity|].
        exists 0%nat. cbn. rewrite app_nil_r. split; [lia | reflexivity].
      * destruct (e =? EINTR).
        -- apply IH in H. exact H.
        -- right. inversion H; subst. split; [reflexivity|].
           exists 0%nat. cbn. rewrite app_nil_r. split; [lia | reflexivity].
Qed.

(** X1.  Whatever the sink answers, [writex] returns 0 after sending the whole
    span, or -1 after sending a strict prefix of it: the status -1 always means
    that at least one byte of the span did not go out, and the bytes that did
    go out are the leading ones, in order.  The diagnostics are not touched. *)
Theorem writex_all_or_strict_prefix (st : world) (p : list byte) :
  trace (snd (writex st p)) = trace st /\
  ((fst (writex st p) = 0 /\ out (snd (writex st p)) = out st ++ p) \/
   (fst (writex st p) = -1 /\
    exists k, (k < length p)%nat /\
              out (snd (writex st p)) = out st ++ firstn k p)).
Proof.
  unfold writex. destruct (writex_loop (pending st) st p) as [r st'] eqn:H.
  cbn [fst snd]. split.
  - destruct (writex_loop_prefix _ _ _ _ _ H) as [k [_ Ht]]. exact Ht.
  - apply (writex_loop_strict _ _ _ _ _ H).
Qed.

Lemma writex_loop_errno ps : forall st p,
  errno (snd (writex_loop ps st p)) = errno st \/
  In (Failed (errno (snd (writex_loop ps st p)))) ps.
Proof.
  induction ps as [|a ps IH]; intros st p.
  - left. destruct p; reflexivity.
  - destruct p as [|b p]; [left; reflexivity|].
    cbn [writex_loop]. destruct a as [n| |e].
    + destruct (IH (emit (firstn (Pos.to_nat n) (b :: p)) st)
                   (skipn (Pos.to_nat n) (b :: p))) as [H|H].
      * left. exact H.
      * right. right. exact H.
    + left. reflexivity.
    + destruct (e =? EINTR).
      * destruct (IH (set_errno e st) (b :: p)) as [H|H].
        -- right. left. cbn [set_errno errno] in H. now rewrite H.
        -- right. right. exact H.
      * right. left. reflexivity.
Qed.

(** X2.  [writex] never clears [errno] and never invents a value for it:
    afterwards [errno] is what it was on entry, or the code of a failure the
    sink has reported.  On a sink that reports no failure, only short writes
    or a zero return, [errno] is left as it was, also when the status is -1. *)
Theorem writex_errno (st : world) (p : list byte) :
  (errno (snd (writex st p)) = errno st \/
   In (Failed (errno (snd (writex st p)))) (pending st)) /\
  ((forall e, ~ In (Failed e) (pending st)) ->
   errno (snd (writex st p)) = errno st).
Proof.
  pose proof (writex_loop_errno (pending st) st p) as H. unfold writex.
  split; [exact H|].
  intros Hno. destruct H as [H|H]; [exact H | destruct (Hno _ H)].
Qed.

Lemma writex_errno_witness :
  fst (writex at_eof (ramp 8)) = -1 /\
  errno (snd (writex at_eof (ramp 8))) = errno at_eof.
Proof.
  split; [reflexivity|].
  apply (proj2 (writex_errno at_eof (ramp 8))).
  intros e [H|[]]. discriminate H.
Defined.

(** ** [write_data]: failures, diagnostics and the extent of the buffer *)

Lemma writex_nil st : writex st [] = (0, st).
Proof. destruct st as [e ps o t]. destruct ps; reflexivity. Qed.

(** The row loop over a buffer that holds the rows, on any sink: it ends at
    the bottom with everything sent and no diagnostic, or at a failed write
    with one diagnostic and less than everything sent. *)
Lemma write_rows_outcome ls rows extra : forall n st,
  uniform ls rows ->
  Z.of_nat (length rows * ls) < two32 ->
  (n <= length rows)%nat ->
  exists r st',
    write_rows n st (concat rows ++ extra) (Z.of_nat (n * ls)) (Z.of_nat ls)
    = Some (r, st') /\
    ((r = NO_ERROR /\ trace st' = trace st /\
      out st' = out st ++ concat (rev (firstn n rows))) \/
     (r = - errno st' /\
      trace st' = trace st ++ [Log "write()" (errno st')] /\
      exists k, (k < length (concat (rev (firstn n rows))))%nat /\
                out st' = out st ++ firstn k (concat (rev (firstn n rows))))).
Proof.
  induction n as [|n IH]; intros st Hu Hfit Hn.
  - exists NO_ERROR, st. split; [reflexivity|]. left. cbn.
    rewrite app_nil_r. auto.
  - cbn [write_rows].
    rewrite (cursor_step ls (length rows) n) by (assumption || lia).
    rewrite read_at_row by (assumption || lia).
    rewrite firstn_snoc by lia. rewrite rev_app_distr. cbn [rev app concat].
    unfold writex. destruct (writex_loop _ st _) as [r1 st1] eqn:Hw.
    destruct (writex_loop_prefix _ _ _ _ _ Hw) as [k0 [_ Ht1]].
    destruct (writex_loop_strict _ _ _ _ _ Hw) as [[-> Ho1]|[-> [k [Hk Ho1]]]].
    + cbn [Z.eqb].
      destruct (IH st1 Hu Hfit ltac:(lia)) as [r [st' [Hr Hcase]]].
      exists r, st'. split; [exact Hr|].
      destruct Hcase as [[-> [Ht Ho]]|[-> [Ht [k [Hk Ho]]]]].
      * left. split; [reflexivity|]. split; [congruence|].
        now rewrite Ho, Ho1, <- app_assoc.
      * right. split; [reflexivity|]. split; [congruence|].
        exists (length (nth n rows []) + k)%nat. split.
        -- rewrite length_app. lia.
        -- now rewrite Ho, Ho1, <- app_assoc, firstn_app_2.
    + cbn [Z.eqb].
      exists (- errno st1), (LOGE "write()" (errno st1) st1).
      split; [reflexivity|]. right. cbn [LOGE record errno trace out].
      split; [reflexivity|]. split; [now rewrite Ht1|].
      exists k. split; [rewrite length_app; lia|].
      rewrite Ho1, firstn_app.
      replace (k - length (nth n rows []))%nat with 0%nat by lia.
      cbn [firstn]. now rewrite app_nil_r.
Qed.

(** X3.  Over a buffer that holds the frame, and on any sink, [write_data]
    either logs nothing, returns [NO_ERROR] and has sent the header and all
    rows in reversed order, or logs exactly one line, returns [-errno] and has
    sent strictly less than that.  The diagnostic, unlike the status (which is
    0 when [errno] is 0), tells the two apart. *)
Theorem write_data_diagnostic_iff_incomplete
        junk st info fb ls rows extra len :
  fill_fbinfo junk info = Some fb ->
  Z.of_nat (length rows) = h info ->
  uniform ls rows ->
  (rows <> [] -> Z.of_nat ls = bytesPerPixel (pixelFormatInfo info) * w info) ->
  Z.of_nat (length rows * ls) < two32 ->
  let stream := fbinfo_image fb ++ concat (rev rows) in
  exists r st',
    write_data junk st info (concat rows ++ extra) len = Some (r, st') /\
    ((r = NO_ERROR /\ trace st' = trace st /\ out st' = out st ++ stream) \/
     (r = - errno st' /\
      trace st' = trace st ++ [Log "write()" (errno st')] /\
      exists k, (k < length stream)%nat /\
                out st' = out st ++ firstn k stream)).
Proof.
  intros Hfb Hh Hu Hls Hfit stream. subst stream.
  unfold write_data. rewrite Hfb.
  unfold writex at 1. destruct (writex_loop _ st _) as [r1 st1] eqn:Hw.
  destruct (writex_loop_prefix _ _ _ _ _ Hw) as [k0 [_ Ht1]].
  destruct (writex_loop_strict _ _ _ _ _ Hw) as [[-> Ho1]|[-> [k [Hk Ho1]]]].
  - cbn [Z.eqb]. rewrite (row_loop_start info ls rows st1 _ Hh Hls Hfit).
    destruct (write_rows_outcome ls rows extra (length rows) st1
                Hu Hfit (Nat.le_refl _)) as [r [st' [Hr Hcase]]].
    rewrite firstn_all in Hcase.
    exists r, st'. split; [exact Hr|].
    destruct Hcase as [[-> [Ht Ho]]|[-> [Ht [k [Hk Ho]]]]].
    + left. split; [reflexivity|]. split; [congruence|].
      now rewrite Ho, Ho1, <- app_assoc.
    + right. split; [reflexivity|]. split; [congruence|].
      exists (length (fbinfo_image fb) + k)%nat. split.
      * rewrite length_app. lia.
      * now rewrite Ho, Ho1, <- app_assoc, firstn_app_2.
  - cbn [Z.eqb].
    exists (- errno st1), (LOGE "write()" (errno st1) st1).
    split; [reflexivity|]. right. cbn [LOGE record errno trace out].
    split; [reflexivity|]. split; [now rewrite Ht1|].
    exists k. split; [rewrite length_app; lia|].
    rewrite Ho1, firstn_app.
    replace (k - length (fbinfo_image fb))%nat with 0%nat by lia.
    cbn [firstn]. now rewrite app_nil_r.
Qed.

Lemma write_data_diagnostic_iff_incomplete_witness :
  exists fb r st',
    fill_fbinfo zero_storage info_565_2x2 = Some fb /\
    write_data zero_storage at_eof info_565_2x2 (concat rows_565_2x2 ++ []) 8
    = Some (r, st') /\
    ((r = NO_ERROR /\ trace st' = trace at_eof /\
      out st' = out at_eof ++ fbinfo_image fb ++ concat (rev rows_565_2x2)) \/
     (r = - errno st' /\
      trace st' = trace at_eof ++ [Log "write()" (errno st')] /\
      exists k,
        (k < length (fbinfo_image fb ++ concat (rev rows_565_2x2)))%nat /\
        out st' = out at_eof
                  ++ firstn k (fbinfo_image fb ++ concat (rev rows_565_2x2)))).
Proof.
  eexists.
  destruct (write_data_diagnostic_iff_incomplete
              zero_storage at_eof info_565_2x2 _ 4%nat rows_565_2x2 [] 8
              eq_refl eq_refl) as [r [st' H]].
  - repeat constructor.
  - intros _. reflexivity.
  - reflexivity.
  - exists r, st'. split; [reflexivity | exact H].
Defined.

(** X4.  When the sink refuses the very first write (it returns 0, or fails
    with a code other than [EINTR]), [write_data] gives up at once: nothing is
    sent, the sink is not asked again, the buffer is never read (the result
    is the same for every [data] and [len]), one line is logged, and the
    status is [-errno], where [errno] is the code of the failure, or, after a
    zero return, whatever it was before the call. *)
Theorem write_data_refused_header junk st info data len a rest :
  supported info ->
  pending st = a :: rest ->
  (a = Eof \/ exists e, a = Failed e /\ e <> EINTR) ->
  exists st',
    write_data junk st info data len = Some (- errno st', st') /\
    errno st' = match a with Failed e => e | _ => errno st end /\
    out st' = out st /\
    pending st' = rest /\
    trace st' = trace st ++ [Log "write()" (errno st')].
Proof.
  intros Hs Hp Ha.
  destruct (fill_fbinfo_supported junk info Hs) as [fb Hfb].
  unfold write_data. rewrite Hfb. unfold writex. rewrite Hp.
  assert (Hne : fbinfo_image fb <> []) by discriminate.
  destruct (fbinfo_image fb) as [|b0 img]; [congruence|].
  destruct Ha as [->|[e [-> He]]]; cbn [writex_loop].
  - exists (LOGE "write()" (errno st) (set_pending rest st)).
    split; [reflexivity|]. cbn. auto.
  - apply Z.eqb_neq in He. rewrite He.
    exists (LOGE "write()" e (set_pending rest (set_errno e st))).
    split; [reflexivity|]. cbn. auto.
Qed.

Lemma write_data_refused_header_witness :
  (exists st',
     write_data stale_storage broken_pipe info_8888_4x2 [] 0
     = Some (- errno st', st') /\
     errno st' = 32 /\ out st' = out broken_pipe /\ pending st' = [] /\
     trace st' = trace broken_pipe ++ [Log "write()" (errno st')]) /\
  (exists st',
     write_data stale_storage at_eof info_8888_4x2 [] 0
     = Some (- errno st', st') /\
     errno st' = errno at_eof /\ out st' = out at_eof /\ pending st' = [] /\
     trace st' = trace at_eof ++ [Log "write()" (errno st')]).
Proof.
  split.
  - apply (write_data_refused_header stale_storage broken_pipe info_8888_4x2
             [] 0 (Failed 32) []).
    + left. reflexivity.
    + reflexivity.
    + right. exists 32. split; [reflexivity | vm_compute; discriminate].
  - apply (write_data_refused_header stale_storage at_eof info_8888_4x2
             [] 0 Eof []).
    + left. reflexivity.
    + reflexivity.
    + left. reflexivity.
Defined.

(** X5.  [write_data] takes the extent of the frame from the geometry alone:
    when the header has gone out and the buffer is shorter than [h] rows of
    [bytesPerPixel * w] bytes, the first row it sends is read from outside the
    buffer, whatever [len] says. *)
Theorem write_data_reads_past_short_buffer junk st info data len :
  supported info ->
  Forall benign (pending st) ->
  0 < h info ->
  0 < bytesPerPixel (pixelFormatInfo info) * w info ->
  h info * (bytesPerPixel (pixelFormatInfo info) * w info) < two32 ->
  Z.of_nat (length data)
    < h info * (bytesPerPixel (pixelFormatInfo info) * w info) ->
  write_data junk st info data len = None.
Proof.
  intros Hs Hb Hh Hl Hfit Hshort.
  destruct (fill_fbinfo_supported junk info Hs) as [fb Hfb].
  unfold write_data. rewrite Hfb.
  destruct (writex_loop_benign (pending st) st (fbinfo_image fb) Hb)
    as [st1 [Hw _]].
  unfold writex at 1. rewrite Hw. cbn [Z.eqb].
  set (L := bytesPerPixel (pixelFormatInfo info) * w info) in *.
  assert (HL : u32 L = L) by (apply u32_small; unfold in_u32; nia).
  rewrite HL.
  assert (Hc : u32 (L * h info) = L * h info)
    by (apply u32_small; unfold in_u32; nia).
  rewrite Hc.
  destruct (Z.to_nat (h info)) as [|n] eqn:En; [lia|].
  cbn [write_rows].
  assert (Hc' : u32 (L * h info - L) = L * (h info - 1)).
  { replace (L * h info - L) with (L * (h info - 1)) by lia.
    apply u32_small. unfold in_u32. nia. }
  rewrite Hc'. unfold read_at.
  replace (L * (h info - 1) + L <=? Z.of_nat (length data)) with false
    by (symmetry; apply Z.leb_gt; lia).
  now rewrite andb_false_r.
Qed.

Lemma write_data_reads_past_short_buffer_witness :
  write_data stale_storage choppy info_565_2x2 (ramp 7) 8 = None.
Proof.
  apply (write_data_reads_past_short_buffer
           stale_storage choppy info_565_2x2 (ramp 7) 8).
  - right. reflexivity.
  - repeat constructor.
  - reflexivity.
  - reflexivity.
  - reflexivity.
  - reflexivity.
Defined.

Lemma write_rows_empty_lines : forall n st data,
  write_rows n st data 0 0 = Some (NO_ERROR, st).
Proof.
  induction n as [|n IH]; intros st data; [reflexivity|].
  cbn [write_rows]. change (u32 (0 - 0)) with 0.
  unfold read_at. cbn [Z.leb Z.compare andb Z.add].
  replace (0 <=? Z.of_nat (length data)) with true
    by (symmetry; apply Z.leb_le; lia).
  cbn [Z.to_nat skipn firstn]. rewrite writex_nil. cbn [Z.eqb]. apply IH.
Qed.

(** X6.  When the size of a row, [bytesPerPixel * w] in 32-bit arithmetic, is
    0 (a width of 0, or a product that wraps to 0), the row loop calls [write]
    for no row and reads nothing: on a sink that refuses nothing [write_data]
    returns [NO_ERROR] with the header alone sent, for every height and every
    buffer. *)
Theorem write_data_empty_lines junk st info data len :
  supported info ->
  Forall benign (pending st) ->
  u32 (bytesPerPixel (pixelFormatInfo info) * w info) = 0 ->
  exists fb st',
    fill_fbinfo junk info = Some fb /\
    write_data junk st info data len = Some (NO_ERROR, st') /\
    out st' = out st ++ fbinfo_image fb.
Proof.
  intros Hs Hb Hz.
  destruct (fill_fbinfo_supported junk info Hs) as [fb Hfb].
  exists fb. unfold write_data. rewrite Hfb.
  destruct (writex_loop_benign (pending st) st (fbinfo_image fb) Hb)
    as [st1 [Hw _]].
  unfold writex at 1. rewrite Hw. cbn [Z.eqb]. rewrite Hz.
  change (u32 (0 * h info)) with 0.
  exists st1. split; [reflexivity|]. split; [apply write_rows_empty_lines|].
  apply (writex_loop_success _ _ _ _ Hw).
Qed.

Lemma write_data_empty_lines_witness :
  exists fb st',
    fill_fbinfo stale_storage (mk_info 0 5 (mk_pfi PIXEL_FORMAT_RGB_565 2) 0)
    = Some fb /\
    write_data stale_storage choppy
               (mk_info 0 5 (mk_pfi PIXEL_FORMAT_RGB_565 2) 0) [] 0
    = Some (NO_ERROR, st') /\
    out st' = out choppy ++ fbinfo_image fb.
Proof.
  apply (write_data_empty_lines stale_storage choppy
           (mk_info 0 5 (mk_pfi PIXEL_FORMAT_RGB_565 2) 0) [] 0).
  - right. reflexivity.
  - repeat constructor.
  - reflexivity.
Defined.

(** ** [main]: exits, releases and the stream as a whole *)

Lemma write_rows_logs_only : forall n st data c l r st',
  write_rows n st data c l = Some (r, st') ->
  exists logs, trace st' = trace st ++ logs /\
               Forall (fun ev => exists m a, ev = Log m a) logs.
Proof.
  induction n as [|n IH]; intros st data c l r st' H.
  - inversion H; subst. exists []. now rewrite app_nil_r.
  - cbn [write_rows] in H.
    destruct (read_at data (u32 (c - l)) l) as [row|]; [|discriminate H].
    unfold writex in H. destruct (writex_loop _ st row) as [r1 st1] eqn:Hw.
    destruct (writex_loop_prefix _ _ _ _ _ Hw) as [k [_ Ht1]].
    destruct (r1 =? 0).
    + apply IH in H. destruct H as [logs [Ht Hl]].
      exists logs. split; [congruence | exact Hl].
    + inversion H; subst. exists [Log "write()" (errno st1)].
      cbn [LOGE record trace]. rewrite Ht1. split; [reflexivity|].
      repeat constructor. eauto.
Qed.

Lemma write_data_logs_only junk st info data len r st' :
  write_data junk st info data len = Some (r, st') ->
  exists logs, trace st' = trace st ++ logs /\
               Forall (fun ev => exists m a, ev = Log m a) logs.
Proof.
  unfold write_data. destruct (fill_fbinfo junk info) as [fb|].
  - unfold writex. destruct (writex_loop _ st _) as [r1 st1] eqn:Hw.
    destruct (writex_loop_prefix _ _ _ _ _ Hw) as [k [_ Ht1]].
    destruct (r1 =? 0).
    + intros H. apply write_rows_logs_only in H.
      destruct H as [logs [Ht Hl]]. exists logs. split; [congruence | exact Hl].
    + intros [= <- <-]. exists [Log "write()" (errno st1)].
      cbn [LOGE record trace]. rewrite Ht1. split; [reflexivity|].
      repeat constructor. eauto.
  - intros [= <- <-]. eexists. cbn [LOGE record trace].
    split; [reflexivity|]. repeat constructor. eauto.
Qed.

Lemma count_logs f logs :
  (forall m a, f (Log m a) = false) ->
  Forall (fun ev => exists m a, ev = Log m a) logs ->
  count_events f logs = 0%nat.
Proof.
  intros Hf. induction 1 as [|ev logs [m [a ->]] _ IH]; [reflexivity|].
  unfold count_events in *. cbn [filter]. now rewrite Hf.
Qed.

Lemma count_record f ev st :
  count_events f (trace (record ev st))
  = (count_events f (trace st) + (if f ev then 1 else 0))%nat.
Proof.
  cbn [record trace]. rewrite count_events_app. unfold count_events.
  cbn [filter]. destruct (f ev); reflexivity.
Qed.

Ltac tally :=
  unfold LOGE, record, set_errno; cbn [trace errno pending out];
  rewrite ?count_events_app; unfold count_events in *; cbn; lia.

(** X7.  When the display query, the creation of the region, the mapping or
    the grab fails, [main] returns without having called [write]: the sink has
    received nothing and has not been asked, and nothing is unmapped or
    closed, not even the descriptor when it is the mapping that failed.  The
    exit code is -1 for a failed query or grab and [-errno] for a failed
    creation or mapping. *)
Theorem main_fails_before_encoding junk st e :
  (fst (getDisplayInfo e) <> 0 \/
   (exists en, ashmem_create_region e = Err en) \/
   (exists en, mmap e = Err en) \/
   fst (grabScreen e) <> 0) ->
  exists code st',
    main junk st e = Some (code, st') /\
    out st' = out st /\
    pending st' = pending st /\
    count_events is_munmap (trace st') = count_events is_munmap (trace st) /\
    count_events is_close (trace st') = count_events is_close (trace st) /\
    code = (if fst (getDisplayInfo e) =? 0
            then match ashmem_create_region e, mmap e with
                 | Err en, _ => - en
                 | Ok _, Err en => - en
                 | Ok _, Ok _ => -1
                 end
            else -1).
Proof.
  intros Hfail. unfold main.
  destruct (getDisplayInfo e) as [err info]. cbn [fst] in *.
  destruct (err =? 0) eqn:Eerr; cbn [negb].
  - destruct (ashmem_create_region e) as [fd|en].
    + destruct (mmap e) as [u|en].
      * destruct (grabScreen e) as [gerr frame]. cbn [fst] in *.
        destruct (gerr =? 0) eqn:Eg; cbn [negb].
        -- apply Z.eqb_eq in Eerr, Eg. exfalso.
           destruct Hfail as [H|[[en H]|[[en H]|H]]];
             congruence || discriminate H.
        -- eexists _, _. split; [reflexivity|].
           cbn [LOGE record set_errno out pending trace].
           rewrite !count_events_app. cbn. repeat split; lia.
      * eexists _, _. split; [reflexivity|].
        cbn [LOGE record set_errno out pending trace].
        rewrite !count_events_app. cbn. repeat split; lia.
    + eexists _, _. split; [reflexivity|].
      cbn [LOGE record set_errno out pending trace].
      rewrite !count_events_app. cbn. repeat split; lia.
  - eexists _, _. split; [reflexivity|].
    cbn [LOGE record set_errno out pending trace].
    rewrite !count_events_app. cbn. repeat split; lia.
Qed.

Lemma main_fails_before_encoding_witness :
  exists st',
    main stale_storage choppy
         (mk_env (0, info_8888_4x2) (Ok 3) (Err 12) (0, ramp 32) (Ok tt))
    = Some (-12, st') /\
    out st' = out choppy /\
    pending st' = pending choppy /\
    count_events is_close (trace st') = count_events is_close (trace choppy).
Proof.
  destruct (main_fails_before_encoding stale_storage choppy
              (mk_env (0, info_8888_4x2) (Ok 3) (Err 12) (0, ramp 32) (Ok tt)))
    as [code [st' [Hrun [Ho [Hp [_ [Hc Hcode]]]]]]].
  - right. right. left. exists 12. reflexivity.
  - exists st'. cbn in Hcode. subst code. repeat split; assumption.
Defined.

(** X8.  In every run of [main] that returns, the mapping and the descriptor
    are released together or not at all, at most once, and only on the way to
    the exit code 0: [munmap] and [close] each occur once more in the trace
    when they occur, and every run that ends with another exit code has
    released neither. *)
Theorem main_releases_both_or_neither junk st e code st' :
  main junk st e = Some (code, st') ->
  (count_events is_munmap (trace st') = count_events is_munmap (trace st) /\
   count_events is_close (trace st') = count_events is_close (trace st)) \/
  (code = 0 /\
   count_events is_munmap (trace st') = S (count_events is_munmap (trace st)) /\
   count_events is_close (trace st') = S (count_events is_close (trace st))).
Proof.
  unfold main. destruct (getDisplayInfo e) as [err info].
  destruct (err =? 0); cbn [negb].
  2:{ intros [= <- <-]. left. tally. }
  destruct (ashmem_create_region e) as [fd|en].
  2:{ intros [= <- <-]. left. tally. }
  destruct (mmap e) as [u|en].
  2:{ intros [= <- <-]. left. tally. }
  destruct (grabScreen e) as [gerr frame]. destruct (gerr =? 0); cbn [negb].
  2:{ intros [= <- <-]. left. tally. }
  destruct (write_data _ _ _ _ _) as [[werr st1]|] eqn:Hwd; [|discriminate].
  apply write_data_logs_only in Hwd. destruct Hwd as [logs [Ht Hl]].
  assert (Hm : count_events is_munmap (trace st1) = count_events is_munmap (trace st)).
  { rewrite Ht, count_events_app, (count_logs is_munmap logs) by auto.
    tally. }
  assert (Hc : count_events is_close (trace st1) = count_events is_close (trace st)).
  { rewrite Ht, count_events_app, (count_logs is_close logs) by auto.
    tally. }
  destruct (werr =? 0); cbn [negb].
  - unfold finish. intros [= <- <-]. right. split; [reflexivity|].
    destruct (munmap e); tally.
  - intros [= <- <-]. left. tally.
Qed.

Lemma main_releases_both_or_neither_witness :
  exists st',
    main zero_storage broken_pipe (env_ok info_8888_4x2 (ramp 32))
    = Some (-1, st') /\
    count_events is_munmap (trace st')
    = count_events is_munmap (trace broken_pipe) /\
    count_events is_close (trace st')
    = count_events is_close (trace broken_pipe).
Proof.
  eexists. split; [vm_compute; reflexivity|].
  destruct (main_releases_both_or_neither zero_storage broken_pipe
              (env_ok info_8888_4x2 (ramp 32)) (-1) _ eq_refl) as [H|[H _]].
  - exact H.
  - discriminate H.
Defined.

(** X9.  A failure of [munmap] is logged and nothing more.  Two runs that
    differ only in the answer of [munmap] agree on the exit code, on what the
    sink receives and on the number of descriptors closed; and the run in
    which every other service succeeds and the sink refuses nothing, while
    [munmap] fails with [en], still exits with 0, has sent the header and the
    rows, and makes the calls: create, map, grab, unmap, the diagnostic of the
    failure, and then the closing of the descriptor all the same. *)
Theorem main_ignores_munmap_failure :
  (forall junk st e m,
     let e' := mk_env (getDisplayInfo e) (ashmem_create_region e) (mmap e)
                      (grabScreen e) m in
     option_map fst (main junk st e') = option_map fst (main junk st e) /\
     option_map (fun r => out (snd r)) (main junk st e')
     = option_map (fun r => out (snd r)) (main junk st e) /\
     option_map (fun r => count_events is_close (trace (snd r)))
                (main junk st e')
     = option_map (fun r => count_events is_close (trace (snd r)))
                  (main junk st e)) /\
  (forall junk st e info fd ls rows en,
     getDisplayInfo e = (0, info) ->
     ashmem_create_region e = Ok fd ->
     mmap e = Ok tt ->
     grabScreen e = (0, concat rows) ->
     munmap e = Err en ->
     supported (undo_rotation info) ->
     Forall benign (pending st) ->
     Z.of_nat (length rows) = h (undo_rotation info) ->
     uniform ls rows ->
     Z.of_nat ls = bytesPerPixel (pixelFormatInfo (undo_rotation info))
                   * w (undo_rotation info) ->
     Z.of_nat (length rows * ls) < two32 ->
     exists fb st',
       fill_fbinfo junk (undo_rotation info) = Some fb /\
       main junk st e = Some (0, st') /\
       out st' = out st ++ fbinfo_image fb ++ concat (rev rows) /\
       errno st' = en /\
       trace st' = trace st ++ [AshmemCreate (size fb); Mmap (size fb) fd;
                                GrabScreen 0 fd; Munmap (size fb);
                                Log "munmap()" en; Close fd]).
Proof.
  split.
  - intros junk st e m. cbv zeta. unfold main.
    cbn [getDisplayInfo ashmem_create_region mmap grabScreen munmap].
    destruct (getDisplayInfo e) as [err info].
    destruct (negb (err =? 0)); [auto|].
    destruct (ashmem_create_region e) as [fd|en]; [|auto].
    destruct (mmap e) as [u|en]; [|auto].
    destruct (grabScreen e) as [gerr frame].
    destruct (negb (gerr =? 0)); [auto|].
    destruct (write_data _ _ _ _ _) as [[werr st1]|]; [|auto].
    destruct (negb (werr =? 0)); [auto|].
    unfold finish. cbn [munmap].
    destruct (munmap e), m; cbn [option_map fst snd];
      (split; [reflexivity|]); (split; [reflexivity|]); f_equal; tally.
  - intros junk st e info fd ls rows en Hq Ha Hm Hg Hmu Hs Hb Hh Hu Hls Hfit.
    destruct (fill_fbinfo_supported junk _ Hs) as [fb Hfb].
    destruct (fill_fbinfo_geometry _ _ _ Hfb) as [_ [_ [Hsize _]]].
    unfold main. rewrite Hq, Ha, Hm, Hg. cbn [Z.eqb negb].
    set (info' := undo_rotation info) in *.
    rewrite <- Hsize.
    assert (Hsz : size fb = Z.of_nat (length rows * ls)).
    { rewrite Hsize. unfold u32.
      rewrite Z.mul_mod_idemp_l by (unfold two32; lia).
      replace (w info' * h info' * bytesPerPixel (pixelFormatInfo info'))
        with (Z.of_nat (length rows * ls)) by nia.
      apply Z.mod_small. lia. }
    assert (Hdata : firstn (Z.to_nat (size fb)) (concat rows) = concat rows).
    { rewrite Hsz, Nat2Z.id, <- (concat_uniform_length ls rows Hu).
      apply firstn_all. }
    rewrite Hdata.
    set (st0 := record (GrabScreen 0 fd) _).
    destruct (write_data_complete junk st0 info' fb ls rows [] (size fb)
                Hfb Hb Hh Hu (fun _ => Hls) Hfit) as [st1 [Hr [Ho [Ht _]]]].
    rewrite app_nil_r in Hr. rewrite Hr. cbn [Z.eqb negb NO_ERROR].
    exists fb. eexists. split; [exact Hfb|]. split; [reflexivity|].
    unfold finish. rewrite Hmu.
    cbn [snd LOGE record set_errno out trace errno].
    rewrite Ho, Ht. subst st0. cbn [record out trace].
    split; [reflexivity|]. split; [reflexivity|].
    rewrite <- !app_assoc. reflexivity.
Qed.

Lemma main_ignores_munmap_failure_witness :
  exists fb st',
    fill_fbinfo stale_storage (undo_rotation info_565_rotated) = Some fb /\
    main stale_storage choppy
         (mk_env (0, info_565_rotated) (Ok 3) (Ok tt)
                 (0, concat rows_565_2x3) (Err 22))
    = Some (0, st') /\
    out st' = out choppy ++ fbinfo_image fb ++ concat (rev rows_565_2x3) /\
    errno st' = 22 /\
    trace st' = trace choppy ++ [AshmemCreate (size fb); Mmap (size fb) 3;
                                 GrabScreen 0 3; Munmap (size fb);
                                 Log "munmap()" 22; Close 3].
Proof.
  apply (proj2 main_ignores_munmap_failure stale_storage choppy
           (mk_env (0, info_565_rotated) (Ok 3) (Ok tt)
                   (0, concat rows_565_2x3) (Err 22))
           info_565_rotated 3 4%nat rows_565_2x3 22).
  - reflexivity.
  - reflexivity.
  - reflexivity.
  - reflexivity.
  - reflexivity.
  - right. reflexivity.
  - repeat constructor.
  - reflexivity.
  - repeat constructor.
  - reflexivity.
  - reflexivity.
Defined.

(** X10.  The correction of the geometry undoes itself: applied twice it gives
    back the queried geometry.  It keeps the pixel format and the orientation,
    and the size of the frame, [w * h * bytesPerPixel] in 32-bit arithmetic, is
    the same before and after it. *)
Theorem undo_rotation_involutive (info : DisplayInfo) :
  undo_rotation (undo_rotation info) = info /\
  pixelFormatInfo (undo_rotation info) = pixelFormatInfo info /\
  orientation (undo_rotation info) = orientation info /\
  u32 (u32 (w (undo_rotation info) * h (undo_rotation info))
       * bytesPerPixel (pixelFormatInfo (undo_rotation info)))
  = u32 (u32 (w info * h info) * bytesPerPixel (pixelFormatInfo info)).
Proof.
  destruct info as [wd ht pfi o]. unfold undo_rotation.
  cbn [w h pixelFormatInfo orientation].
  destruct (Z.land o eOrientationSwapMask =? 0) eqn:E;
    cbn [w h pixelFormatInfo orientation]; rewrite ?E;
    cbn [w h pixelFormatInfo orientation].
  - auto.
  - rewrite (Z.mul_comm ht wd). auto.
Qed.

(** X11.  The run in which every service succeeds and the sink refuses
    nothing, as a whole: exit code 0; the sink receives the 52 bytes of the
    header of the corrected geometry and then the rows of the region, last row
    first, [52 + size] bytes in all; and the calls are, in this order, the
    creation of a region of [size] bytes, its mapping, the grab, the unmapping
    of [size] bytes and the closing of the same descriptor, [size] being the
    value of the header's size member. *)
Theorem main_stream junk st e info fd ls rows :
  getDisplayInfo e = (0, info) ->
  ashmem_create_region e = Ok fd ->
  mmap e = Ok tt ->
  grabScreen e = (0, concat rows) ->
  munmap e = Ok tt ->
  supported (undo_rotation info) ->
  Forall benign (pending st) ->
  Z.of_nat (length rows) = h (undo_rotation info) ->
  uniform ls rows ->
  Z.of_nat ls = bytesPerPixel (pixelFormatInfo (undo_rotation info))
                * w (undo_rotation info) ->
  Z.of_nat (length rows * ls) < two32 ->
  exists fb st',
    fill_fbinfo junk (undo_rotation info) = Some fb /\
    main junk st e = Some (0, st') /\
    out st' = out st ++ fbinfo_image fb ++ concat (rev rows) /\
    Z.of_nat (length (out st')) = Z.of_nat (length (out st)) + 52 + size fb /\
    trace st' = trace st ++ [AshmemCreate (size fb); Mmap (size fb) fd;
                             GrabScreen 0 fd; Munmap (size fb); Close fd].
Proof.
  intros Hq Ha Hm Hg Hmu Hs Hb Hh Hu Hls Hfit.
  destruct (fill_fbinfo_supported junk _ Hs) as [fb Hfb].
  destruct (fill_fbinfo_geometry _ _ _ Hfb) as [_ [_ [Hsize _]]].
  unfold main. rewrite Hq, Ha, Hm, Hg. cbn [Z.eqb negb].
  set (info' := undo_rotation info) in *.
  rewrite <- Hsize.
  assert (Hsz : size fb = Z.of_nat (length rows * ls)).
  { rewrite Hsize. unfold u32.
    rewrite Z.mul_mod_idemp_l by (unfold two32; lia).
    replace (w info' * h info' * bytesPerPixel (pixelFormatInfo info'))
      with (Z.of_nat (length rows * ls)) by nia.
    apply Z.mod_small. lia. }
  assert (Hdata : firstn (Z.to_nat (size fb)) (concat rows) = concat rows).
  { rewrite Hsz, Nat2Z.id, <- (concat_uniform_length ls rows Hu).
    apply firstn_all. }
  rewrite Hdata.
  set (st0 := record (GrabScreen 0 fd) _).
  destruct (write_data_complete junk st0 info' fb ls rows [] (size fb)
              Hfb Hb Hh Hu (fun _ => Hls) Hfit) as [st1 [Hr [Ho [Ht _]]]].
  rewrite app_nil_r in Hr. rewrite Hr. cbn [Z.eqb negb NO_ERROR].
  exists fb. eexists. split; [exact Hfb|]. split; [reflexivity|].
  unfold finish. rewrite Hmu. cbn [snd record out trace].
  rewrite Ho, Ht. subst st0. cbn [record out trace].
  split; [reflexivity|]. split.
  - rewrite !length_app, (concat_rev_length ls rows Hu), Hsz.
    change (length (fbinfo_image fb)) with 52%nat. lia.
  - rewrite <- !app_assoc. reflexivity.
Qed.

Lemma main_stream_witness :
  exists fb st',
    fill_fbinfo stale_storage (undo_rotation info_565_rotated) = Some fb /\
    main stale_storage choppy (env_ok info_565_rotated (concat rows_565_2x3))
    = Some (0, st') /\
    out st' = out choppy ++ fbinfo_image fb ++ concat (rev rows_565_2x3) /\
    Z.of_nat (length (out st'))
    = Z.of_nat (length (out choppy)) + 52 + size fb /\
    trace st' = trace choppy ++ [AshmemCreate (size fb); Mmap (size fb) 3;
                                 GrabScreen 0 3; Munmap (size fb); Close 3].
Proof.
  apply (main_stream stale_storage choppy
           (env_ok info_565_rotated (concat rows_565_2x3))
           info_565_rotated 3 4%nat rows_565_2x3).
  - reflexivity.
  - reflexivity.
  - reflexivity.
  - reflexivity.
  - reflexivity.
  - right. reflexivity.
  - repeat constructor.
  - reflexivity.
  - repeat constructor.
  - reflexivity.
  - reflexivity.
Defined.

(** X12.  The size member bounds what follows the header.  Over a buffer that
    holds the frame, whatever the sink does, [write_data] has sent at most
    [52 + size] bytes when it returns; on a sink that refuses nothing it has
    sent exactly that many, the [size] bytes after the header being the
    rows. *)
Theorem payload_bounded_by_size junk st info fb ls rows extra len :
  fill_fbinfo junk info = Some fb ->
  Z.of_nat (length rows) = h info ->
  uniform ls rows ->
  (rows <> [] -> Z.of_nat ls = bytesPerPixel (pixelFormatInfo info) * w info) ->
  Z.of_nat (length rows * ls) < two32 ->
  size fb = Z.of_nat (length (concat (rev rows))) /\
  (exists r st',
     write_data junk st info (concat rows ++ extra) len = Some (r, st') /\
     Z.of_nat (length (out st')) <= Z.of_nat (length (out st)) + 52 + size fb) /\
  (Forall benign (pending st) ->
   exists st',
     write_data junk st info (concat rows ++ extra) len = Some (NO_ERROR, st') /\
     Z.of_nat (length (out st')) = Z.of_nat (length (out st)) + 52 + size fb).
Proof.
  intros Hfb Hh Hu Hls Hfit.
  assert (Hsz : size fb = Z.of_nat (length (concat (rev rows)))).
  { destruct (fill_fbinfo_geometry _ _ _ Hfb) as [_ [_ [-> _]]].
    rewrite (concat_rev_length ls rows Hu). unfold u32.
    rewrite Z.mul_mod_idemp_l by (unfold two32; lia).
    destruct rows as [|r0 rows'].
    - cbn [length] in Hh. rewrite <- Hh. cbn.
      now rewrite Z.mul_0_r.
    - assert (Hne : r0 :: rows' <> []) by discriminate.
      specialize (Hls Hne).
      replace (w info * h info * bytesPerPixel (pixelFormatInfo info))
        with (Z.of_nat (length (r0 :: rows') * ls)) by nia.
      apply Z.mod_small. lia. }
  split; [exact Hsz|]. split.
  - destruct (write_data_any junk st info fb ls rows extra len
                Hfb Hh Hu Hls Hfit) as [r [st' [k [Hr Ho]]]].
    exists r, st'. split; [exact Hr|].
    rewrite Ho, length_app, Hsz.
    pose proof (firstn_le_length k (fbinfo_image fb ++ concat (rev rows))) as Hk.
    pose proof (length_firstn k (fbinfo_image fb ++ concat (rev rows))) as Hk'.
    rewrite length_app in Hk'.
    change (length (fbinfo_image fb)) with 52%nat in Hk'. lia.
  - intros Hb.
    destruct (write_data_complete junk st info fb ls rows extra len
                Hfb Hb Hh Hu Hls Hfit) as [st' [Hr [Ho _]]].
    exists st'. split; [exact Hr|].
    rewrite Ho, !length_app, Hsz.
    change (length (fbinfo_image fb)) with 52%nat. lia.
Qed.

Lemma payload_bounded_by_size_witness :
  exists fb,
    fill_fbinfo stale_storage info_565_2x2 = Some fb /\
    size fb = Z.of_nat (length (concat (rev rows_565_2x2))) /\
    (exists r st',
       write_data stale_storage broken_pipe info_565_2x2
                  (concat rows_565_2x2 ++ []) 8 = Some (r, st') /\
       Z.of_nat (length (out st'))
       <= Z.of_nat (length (out broken_pipe)) + 52 + size fb) /\
    (exists st',
       write_data stale_storage choppy info_565_2x2
                  (concat rows_565_2x2 ++ []) 8 = Some (NO_ERROR, st') /\
       Z.of_nat (length (out st'))
       = Z.of_nat (length (out choppy)) + 52 + size fb).
Proof.
  eexists. split; [reflexivity|].
  split; [|split].
  - apply (payload_bounded_by_size stale_storage clean info_565_2x2 _ 4%nat
             rows_565_2x2 [] 8 eq_refl eq_refl);
      [repeat constructor | reflexivity | reflexivity].
  - apply (payload_bounded_by_size stale_storage broken_pipe info_565_2x2 _
             4%nat rows_565_2x2 [] 8 eq_refl eq_refl);
      [repeat constructor | reflexivity | reflexivity].
  - apply (payload_bounded_by_size stale_storage choppy info_565_2x2 _ 4%nat
             rows_565_2x2 [] 8 eq_refl eq_refl);
      [repeat constructor | reflexivity | reflexivity | repeat constructor].
Defined.

(** X13.  [main] learns that the format is not supported only from
    [write_data], after the region was created and mapped and the screen
    grabbed into it: the run ends with exit code -1, two diagnostics, nothing
    on the sink, and the region neither unmapped nor closed. *)
Theorem main_rejects_format_after_grab junk st e info fd frame :
  getDisplayInfo e = (0, info) ->
  ashmem_create_region e = Ok fd ->
  mmap e = Ok tt ->
  grabScreen e = (0, frame) ->
  format (pixelFormatInfo info) <> PIXEL_FORMAT_RGBA_8888 ->
  format (pixelFormatInfo info) <> PIXEL_FORMAT_RGB_565 ->
  exists st' sz,
    main junk st e = Some (-1, st') /\
    out st' = out st /\
    pending st' = pending st /\
    trace st' = trace st ++ [AshmemCreate sz; Mmap sz fd; GrabScreen 0 fd;
                             Log "Unknown pixel format"
                                 (format (pixelFormatInfo info));
                             Log "write_data" BAD_VALUE].
Proof.
  intros Hq Ha Hm Hg H1 H2.
  assert (Hpfi : pixelFormatInfo (undo_rotation info) = pixelFormatInfo info).
  { unfold undo_rotation. destruct (_ =? 0); reflexivity. }
  unfold main. rewrite Hq, Ha, Hm, Hg. cbn [Z.eqb negb].
  unfold write_data, fill_fbinfo. rewrite Hpfi.
  apply Z.eqb_neq in H1, H2. rewrite H1, H2.
  cbn [Z.eqb BAD_VALUE negb].
  eexists _, _. split; [reflexivity|].
  cbn [LOGE record out pending trace]. repeat split.
  rewrite <- !app_assoc. reflexivity.
Qed.

Lemma main_rejects_format_after_grab_witness :
  exists st' sz,
    main stale_storage choppy (env_ok info_other (ramp 24)) = Some (-1, st') /\
    out st' = out choppy /\
    pending st' = pending choppy /\
    trace st' = trace choppy ++ [AshmemCreate sz; Mmap sz 3; GrabScreen 0 3;
                                 Log "Unknown pixel format"
                                     (format (pixelFormatInfo info_other));
                                 Log "write_data" BAD_VALUE].
Proof.
  apply (main_rejects_format_after_grab stale_storage choppy
           (env_ok info_other (ramp 24)) info_other 3 (ramp 24)).
  - reflexivity.
  - reflexivity.
  - reflexivity.
  - reflexivity.
  - vm_compute. discriminate.
  - vm_compute. discriminate.
Defined.
